(** * User-registration demo: the Express/SQLite resource API and the form controller

    A shallow embedding of [server.js] (the route handlers over the [users]
    table) and of [public/app.js] (the submit handler), with the
    properties of the validated CRUD contract proved over it.

    Conventions of the embedding:
    - a JSON request body is typed as the data model types it: [username] and
      [email] are strings, [age] is a number, and each may be absent
      ([undefined] or [null], here [None]);
    - a JavaScript string is the string of the bytes of its UTF-8 encoding
      (which is also how SQLite stores and compares TEXT);
    - a JavaScript number is a rational ([Q]); every finite double is one, and
      the comparisons the handlers make are exact on them;
    - the database driver is modelled at the level of the SQL it is given,
      over the schema that [initDatabase] creates; text is stored and read
      back verbatim, rowids are unbounded integers;
    - [CURRENT_TIMESTAMP] is the clock reading (whole seconds) supplied with
      the request that inserts. *)

From Stdlib Require Import ZArith QArith String Ascii List Bool Lia.
From Stdlib Require Import Sorting.Permutation Sorting.Sorted.
From Stdlib Require Import DecimalString DecimalPos DecimalZ.
Import ListNotations.

Local Open Scope string_scope.
Local Open Scope Z_scope.

(* ===================================================================== *)
(** ** JavaScript built-ins used by the handlers *)
(* ===================================================================== *)

(** [!s] on a possibly absent string: absent and the empty string are falsy. *)
Definition js_not_string (s : option string) : bool :=
  match s with
  | None => true
  | Some s => String.eqb s ""
  end.

(** [!n] on a possibly absent number: absent and zero are falsy. *)
Definition js_not_number (n : option Q) : bool :=
  match n with
  | None => true
  | Some q => Qeq_bool q 0
  end.

(** [a < b] on numbers. *)
Definition js_lt (a b : Q) : bool := negb (Qle_bool b a).

(** [s.includes(pat)]. *)
Definition includes (s pat : string) : bool :=
  match String.index 0 pat s with
  | Some _ => true
  | None => false
  end.

(** White space that [parseInt] skips (the one-byte ones). *)
Definition is_js_whitespace (c : ascii) : bool :=
  let n := Z.of_nat (nat_of_ascii c) in
  (9 <=? n) && (n <=? 13) || (n =? 32).

(** The other white space of JavaScript (WhiteSpace and LineTerminator), by
    the bytes of its encoding: U+00A0 takes two bytes; U+1680, U+2000 to
    U+200A, U+2028, U+2029, U+202F, U+205F, U+3000 and U+FEFF take three. *)
Definition is_js_whitespace2 (c1 c2 : ascii) : bool :=
  let b1 := Z.of_nat (nat_of_ascii c1) in
  let b2 := Z.of_nat (nat_of_ascii c2) in
  (b1 =? 194) && (b2 =? 160).

Definition is_js_whitespace3 (c1 c2 c3 : ascii) : bool :=
  let b1 := Z.of_nat (nat_of_ascii c1) in
  let b2 := Z.of_nat (nat_of_ascii c2) in
  let b3 := Z.of_nat (nat_of_ascii c3) in
  (b1 =? 225) && (b2 =? 154) && (b3 =? 128)
  || (b1 =? 226) && (b2 =? 128)
     && ((128 <=? b3) && (b3 <=? 138) || (b3 =? 168) || (b3 =? 169) || (b3 =? 175))
  || (b1 =? 226) && (b2 =? 129) && (b3 =? 159)
  || (b1 =? 227) && (b2 =? 128) && (b3 =? 128)
  || (b1 =? 239) && (b2 =? 187) && (b3 =? 191).

(** The first byte of one of these longer encodings. *)
Definition is_js_whitespace_lead (c : ascii) : bool :=
  let b := Z.of_nat (nat_of_ascii c) in
  (b =? 194) || (b =? 225) || (b =? 226) || (b =? 227) || (b =? 239).

(** The string without the white space it starts with. *)
Fixpoint trim_start (s : string) : string :=
  match s with
  | String c s' =>
      if is_js_whitespace c then trim_start s'
      else if is_js_whitespace_lead c then
        match s' with
        | String c2 s2 =>
            if is_js_whitespace2 c c2 then trim_start s2
            else
              match s2 with
              | String c3 s3 =>
                  if is_js_whitespace3 c c2 c3 then trim_start s3 else s
              | EmptyString => s
              end
        | EmptyString => s
        end
      else s
  | EmptyString => EmptyString
  end.

(** The string without the white space it ends with: it stops where nothing
    but white space follows. *)
Fixpoint trim_end (s : string) : string :=
  match s with
  | String c s' =>
      if String.eqb (trim_start s) "" then EmptyString
      else String c (trim_end s')
  | EmptyString => EmptyString
  end.

(** [s.trim()]. *)
Definition trim (s : string) : string := trim_end (trim_start s).

Definition digit_value (c : ascii) : option Z :=
  let n := Z.of_nat (nat_of_ascii c) in
  if (48 <=? n) && (n <=? 57) then Some (n - 48)
  else if (97 <=? n) && (n <=? 122) then Some (n - 87)
  else if (65 <=? n) && (n <=? 90) then Some (n - 55)
  else None.

(** The longest prefix of digits of the radix, read most significant first;
    [None] when there is no digit at all. *)
Fixpoint parse_digits (radix : Z) (acc : option Z) (s : string) : option Z :=
  match s with
  | EmptyString => acc
  | String c s' =>
      match digit_value c with
      | Some d =>
          if d <? radix
          then parse_digits radix
                 (Some (radix * match acc with Some a => a | None => 0 end + d)) s'
          else acc
      | None => acc
      end
  end.

(** [parseInt(s)] with no radix argument; [None] is [NaN].  The result is the
    integer that the digits denote, kept exact; JavaScript holds it as a
    double ([double_of_Z] below), which is the same number up to 2^53. *)
Definition parseInt (s : string) : option Z :=
  let s := trim_start s in
  let '(sign, s) :=
    match s with
    | String "-" s' => (-1, s')
    | String "+" s' => (1, s')
    | _ => (1, s)
    end in
  let '(radix, s) :=
    match s with
    | String "0" (String "x" s') => (16, s')
    | String "0" (String "X" s') => (16, s')
    | _ => (10, s)
    end in
  option_map (Z.mul sign) (parse_digits radix None s).

(** The double nearest to an integer, ties to even: what JavaScript makes of
    the integer that a string of digits denotes.  [None] when the integer is
    beyond the finite doubles (the result is then [Infinity]). *)
Definition double_of_Z (n : Z) : option Z :=
  let a := Z.abs n in
  let e := Z.log2 a - 52 in
  if e <=? 0 then Some n
  else
    let q := Z.shiftr a e in
    let r := a - Z.shiftl q e in
    let half := Z.shiftl 1 (e - 1) in
    let q := if (half <? r) || (r =? half) && Z.odd q then q + 1 else q in
    let m := Z.shiftl q e in
    if 2 ^ 1024 <=? m then None else Some (Z.sgn n * m).

(** [String(n)] for an integer [n], as a template literal renders an id. *)
Definition js_string_of_int (n : Z) : string :=
  NilZero.string_of_int (Z.to_int n).

(* ===================================================================== *)
(** ** The [users] table *)
(* ===================================================================== *)

(** A number as SQLite holds it in a column of INTEGER affinity. *)
Inductive SqlNumber :=
| INTEGER (z : Z)
| REAL (q : Q).

(** Binding a JavaScript number to the [age] column: a value that is a whole
    number is stored as INTEGER, any other is kept as REAL (the column's
    affinity converts only what converts without loss). *)
Definition bind_number (q : Q) : SqlNumber :=
  let r := Qred q in
  if (Qden r =? 1)%positive then INTEGER (Qnum r) else REAL q.

(** Reading a numeric column back into a JavaScript number. *)
Definition get_number (v : SqlNumber) : Q :=
  match v with
  | INTEGER z => inject_Z z
  | REAL q => q
  end.

(** A row of [SELECT * FROM users]: [id, username, email, age, created_at]. *)
Definition Row : Type := Z * string * string * SqlNumber * Z.

Definition col0 (row : Row) : Z := let '(id, _, _, _, _) := row in id.
Definition col1 (row : Row) : string := let '(_, username, _, _, _) := row in username.
Definition col2 (row : Row) : string := let '(_, _, email, _, _) := row in email.
Definition col3 (row : Row) : SqlNumber := let '(_, _, _, age, _) := row in age.
Definition col4 (row : Row) : Z := let '(_, _, _, _, created_at) := row in created_at.

(** The database: the rows of [users] in rowid order, and the row of
    [sqlite_sequence] that AUTOINCREMENT keeps for the table. *)
Record Database := mkDatabase {
  users : list Row;
  sqlite_sequence : Z
}.

(** [new SQL.Database()] followed by the CREATE TABLE of [initDatabase]. *)
Definition empty_database : Database := mkDatabase [] 0.

(** The statements the handlers issue, with their bound parameters.  A bound
    [NaN] is SQL NULL, here [None]. *)
Inductive Sql :=
| SELECT_users_ORDER_BY_created_at_DESC
| SELECT_users_WHERE_id (id : option Z)
| SELECT_users_WHERE_username (username : string)
| INSERT_INTO_users (username email : string) (age : Q)
| DELETE_FROM_users_WHERE_id (id : option Z)
| DELETE_FROM_users.

Fixpoint max_rowid (rows : list Row) : Z :=
  match rows with
  | [] => 0
  | row :: rows => Z.max (col0 row) (max_rowid rows)
  end.

(** AUTOINCREMENT: one more than the largest rowid the table ever held. *)
Definition next_rowid (d : Database) : Z :=
  Z.max (sqlite_sequence d) (max_rowid (users d)) + 1.

(** [ORDER BY created_at DESC] as a sort of the rows: a row goes in front of
    the first row that is not newer than it.  SQL leaves the order among rows
    of equal [created_at] open; here they stay in rowid order. *)
Fixpoint insert_by_created_at (row : Row) (sorted : list Row) : list Row :=
  match sorted with
  | [] => [row]
  | r :: rest =>
      if col4 r <=? col4 row
      then row :: r :: rest
      else r :: insert_by_created_at row rest
  end.

Definition order_by_created_at_desc (rows : list Row) : list Row :=
  fold_right insert_by_created_at [] rows.

Definition id_matches (id : option Z) (row : Row) : bool :=
  match id with
  | Some n => col0 row =? n
  | None => false
  end.

Definition username_matches (username : string) (row : Row) : bool :=
  String.eqb (col1 row) username.

Definition email_matches (email : string) (row : Row) : bool :=
  String.eqb (col2 row) email.

(** The rows a SELECT returns. *)
Definition select (stmt : Sql) (d : Database) : list Row :=
  match stmt with
  | SELECT_users_ORDER_BY_created_at_DESC => order_by_created_at_desc (users d)
  | SELECT_users_WHERE_id id => filter (id_matches id) (users d)
  | SELECT_users_WHERE_username username => filter (username_matches username) (users d)
  | _ => []
  end.

(** The effect of a statement on the database, or the message of the error
    it raises.  An INSERT checks the UNIQUE columns in the order they are
    declared; a statement that fails changes nothing. *)
Definition execute (now : Z) (stmt : Sql) (d : Database) : string + Database :=
  match stmt with
  | INSERT_INTO_users username email age =>
      if existsb (username_matches username) (users d)
      then inl "UNIQUE constraint failed: users.username"
      else if existsb (email_matches email) (users d)
      then inl "UNIQUE constraint failed: users.email"
      else
        let id := next_rowid d in
        inr (mkDatabase (users d ++ [(id, username, email, bind_number age, now)]) id)
  | DELETE_FROM_users_WHERE_id id =>
      inr (mkDatabase (filter (fun row => negb (id_matches id row)) (users d))
                      (sqlite_sequence d))
  | DELETE_FROM_users =>
      inr (mkDatabase [] (sqlite_sequence d))
  | _ => inr d
  end.

(* ===================================================================== *)
(** ** The server process: handle, file and the calls made on them *)
(* ===================================================================== *)

(** What a handler runs against: the open database [db] and the contents of
    the file at [dbPath] (the module-level state of [server.js]), the
    statements passed to the driver so far, newest first, and the clock that
    CURRENT_TIMESTAMP reads. *)
Record Server := mkServer {
  db : Database;
  dbPath : Database;
  issued : list Sql;
  clock : Z
}.

(** The store as a client can tell it apart: the open database and its file. *)
Definition store (s : Server) : Database * Database := (db s, dbPath s).

(** The server as [initDatabase] leaves it when there is no file yet. *)
Definition initial_server (now : Z) : Server :=
  mkServer empty_database empty_database [] now.

(** Statements either return a value or throw an [Error] with a message; the
    state reached so far is kept in both cases. *)
Inductive Completion (A : Type) :=
| Normal (a : A)
| Throw (message : string).
Arguments Normal {A} a.
Arguments Throw {A} message.

Definition Js (A : Type) : Type := Server -> Completion A * Server.

Definition ret {A} (a : A) : Js A := fun s => (Normal a, s).

Definition bind {A B} (m : Js A) (k : A -> Js B) : Js B :=
  fun s =>
    match m s with
    | (Normal a, s') => k a s'
    | (Throw message, s') => (Throw message, s')
    end.

Definition throw {A} (message : string) : Js A := fun s => (Throw message, s).

(** [try { body } catch (error) { handler }]. *)
Definition try_catch {A} (body : Js A) (handler : string -> Js A) : Js A :=
  fun s =>
    match body s with
    | (Normal a, s') => (Normal a, s')
    | (Throw message, s') => handler message s'
    end.

Declare Scope js_scope.
Delimit Scope js_scope with js.
Notation "x <- m ;; k" := (bind m (fun x => k))
  (at level 61, m at next level, right associativity) : js_scope.
Notation "m ;; k" := (bind m (fun _ => k))
  (at level 61, right associativity) : js_scope.
Local Open Scope js_scope.

Definition note (stmt : Sql) (s : Server) : Server :=
  mkServer (db s) (dbPath s) (stmt :: issued s) (clock s).

(** [db.run(sql, params)]. *)
Definition db_run (stmt : Sql) : Js unit :=
  fun s =>
    let s := note stmt s in
    match execute (clock s) stmt (db s) with
    | inl message => (Throw message, s)
    | inr d => (Normal tt, mkServer d (dbPath s) (issued s) (clock s))
    end.

(** [db.exec(sql, params)]: one result set when the statement returns rows,
    none otherwise. *)
Definition db_exec (stmt : Sql) : Js (list (list Row)) :=
  fun s =>
    let s := note stmt s in
    match execute (clock s) stmt (db s) with
    | inl message => (Throw message, s)
    | inr d =>
        let result :=
          match select stmt (db s) with
          | [] => []
          | values => [values]
          end in
        (Normal result, mkServer d (dbPath s) (issued s) (clock s))
    end.

(** [saveDatabase()]: the file takes the exported database. *)
Definition saveDatabase : Js unit :=
  fun s => (Normal tt, mkServer (db s) (db s) (issued s) (clock s)).

(* ===================================================================== *)
(** ** Requests and responses *)
(* ===================================================================== *)

(** The user object of a response. *)
Module User.
Record t := mk {
  id : Z;
  username : string;
  email : string;
  age : Q;
  created_at : Z
}.
End User.

(** The body of [POST /api/users]. *)
Module Body.
Record t := mk {
  username : option string;
  email : option string;
  age : option Q
}.
End Body.

(** A response body; a key that the handler does not set is [None]. *)
Module Json.
Record t := mk {
  success : bool;
  message : option string;
  user : option User.t;
  users : option (list User.t)
}.
End Json.

Record Response := mkResponse {
  status : Z;
  body : Json.t
}.

(** The object literal the handlers build from a row. *)
Definition user_of_row (row : Row) : User.t :=
  User.mk (col0 row) (col1 row) (col2 row) (get_number (col3 row)) (col4 row).

Definition failure (code : Z) (message : string) : Response :=
  mkResponse code (Json.mk false (Some message) None None).

(* ===================================================================== *)
(** ** The route handlers of [server.js] *)
(* ===================================================================== *)

(** [app.get('/api/users')]. *)
Definition get_api_users : Js Response :=
  try_catch
    (result <- db_exec SELECT_users_ORDER_BY_created_at_DESC ;;
     let users :=
       match result with
       | values :: _ => map user_of_row values
       | [] => []
       end in
     ret (mkResponse 200 (Json.mk true None None (Some users))))
    (fun error => ret (failure 500 error)).

(** [app.get('/api/users/:id')]. *)
Definition get_api_users_id (id : string) : Js Response :=
  try_catch
    (result <- db_exec (SELECT_users_WHERE_id (parseInt id)) ;;
     match result with
     | (row :: _) :: _ =>
         ret (mkResponse 200 (Json.mk true None (Some (user_of_row row)) None))
     | _ => ret (failure 404 "User not found")
     end)
    (fun error => ret (failure 500 error)).

(** [app.get('/api/users/username/:username')]. *)
Definition get_api_users_username (username : string) : Js Response :=
  try_catch
    (result <- db_exec (SELECT_users_WHERE_username username) ;;
     match result with
     | (row :: _) :: _ =>
         ret (mkResponse 200 (Json.mk true None (Some (user_of_row row)) None))
     | _ => ret (failure 404 "User not found")
     end)
    (fun error => ret (failure 500 error)).

(** [app.post('/api/users')]. *)
Definition post_api_users (req_body : Body.t) : Js Response :=
  try_catch
    (let username := Body.username req_body in
     let email := Body.email req_body in
     let age := Body.age req_body in
     if js_not_string username || js_not_string email || js_not_number age
     then ret (failure 400 "All fields are required")
     else
       match username, email, age with
       | Some username, Some email, Some age =>
           if js_lt age 1 || js_lt 150 age
           then ret (failure 400 "Age must be between 1 and 150")
           else
             db_run (INSERT_INTO_users username email age) ;;
             saveDatabase ;;
             result <- db_exec (SELECT_users_WHERE_username username) ;;
             match result with
             | (row :: _) :: _ =>
                 ret (mkResponse 201
                        (Json.mk true (Some "User registered successfully")
                           (Some (user_of_row row)) None))
             | _ => throw "Cannot read properties of undefined"
             end
       | _, _, _ =>
           (* not reached: an absent field is falsy *)
           ret (failure 400 "All fields are required")
       end)
    (fun error =>
       if includes error "UNIQUE constraint failed"
       then ret (failure 409 "Username or email already exists")
       else ret (failure 500 error)).

(** [app.delete('/api/users/:id')]. *)
Definition delete_api_users_id (id : string) : Js Response :=
  try_catch
    (db_run (DELETE_FROM_users_WHERE_id (parseInt id)) ;;
     saveDatabase ;;
     ret (mkResponse 200
            (Json.mk true (Some "User deleted successfully") None None)))
    (fun error => ret (failure 500 error)).

(** [app.delete('/api/users')]. *)
Definition delete_api_users : Js Response :=
  try_catch
    (db_run DELETE_FROM_users ;;
     saveDatabase ;;
     ret (mkResponse 200
            (Json.mk true (Some "All users deleted successfully") None None)))
    (fun error => ret (failure 500 error)).

(** The requests the router dispatches. *)
Inductive Request :=
| GET_api_users
| GET_api_users_id (id : string)
| GET_api_users_username (username : string)
| POST_api_users (req_body : Body.t)
| DELETE_api_users_id (id : string)
| DELETE_api_users.

Definition route (r : Request) : Js Response :=
  match r with
  | GET_api_users => get_api_users
  | GET_api_users_id id => get_api_users_id id
  | GET_api_users_username username => get_api_users_username username
  | POST_api_users req_body => post_api_users req_body
  | DELETE_api_users_id id => delete_api_users_id id
  | DELETE_api_users => delete_api_users
  end.

(** One request served to completion at clock reading [now]; an error that
    escapes a handler is answered 500 by the framework. *)
Definition serve (now : Z) (r : Request) (s : Server) : Response * Server :=
  match route r (mkServer (db s) (dbPath s) (issued s) now) with
  | (Normal response, s') => (response, s')
  | (Throw message, s') => (failure 500 message, s')
  end.

(** A sequence of requests, each with the clock reading it is served at,
    handled one after the other; the responses come back in order. *)
Fixpoint run (requests : list (Z * Request)) (s : Server) : list Response * Server :=
  match requests with
  | [] => ([], s)
  | (now, r) :: rest =>
      let (response, s1) := serve now r s in
      let (responses, s2) := run rest s1 in
      (response :: responses, s2)
  end.

(* ===================================================================== *)
(** ** The form controller of [public/app.js] *)
(* ===================================================================== *)

(** A value assigned to an element's [textContent]; the page shows its string
    conversion. *)
Inductive JsValue :=
| undefined
| JsString (s : string)
| JsNumber (q : Q).

(** The part of the page the script reads and writes. *)
Record Dom := mkDom {
  username_value : string;
  email_value : string;
  age_value : string;
  form_hidden : bool;
  message_textContent : JsValue;
  message_className : string;
  message_hidden : bool;
  userInfo_hidden : bool;
  userId : JsValue;
  displayUsername : JsValue;
  displayEmail : JsValue;
  displayAge : JsValue;
  submitBtn_disabled : bool;
  submitBtn_textContent : string
}.

(** [submitBtn.disabled = ...; submitBtn.textContent = ...]. *)
Definition set_submitBtn (disabled : bool) (text : string) (d : Dom) : Dom :=
  mkDom (username_value d) (email_value d) (age_value d) (form_hidden d)
    (message_textContent d) (message_className d) (message_hidden d)
    (userInfo_hidden d) (userId d) (displayUsername d) (displayEmail d)
    (displayAge d) disabled text.

(** [showMessage(text, type)].  The timer that hides a message of type
    ['success'] again is never armed by the submit handler, which only passes
    ['error']. *)
Definition showMessage (text : JsValue) (type : string) (d : Dom) : Dom :=
  mkDom (username_value d) (email_value d) (age_value d) (form_hidden d)
    text ("message " ++ type) false
    (userInfo_hidden d) (userId d) (displayUsername d) (displayEmail d)
    (displayAge d) (submitBtn_disabled d) (submitBtn_textContent d).

(** [form.classList.add('hidden'); messageDiv.classList.add('hidden')]. *)
Definition hide_form_and_message (d : Dom) : Dom :=
  mkDom (username_value d) (email_value d) (age_value d) true
    (message_textContent d) (message_className d) true
    (userInfo_hidden d) (userId d) (displayUsername d) (displayEmail d)
    (displayAge d) (submitBtn_disabled d) (submitBtn_textContent d).

(** The four [textContent] assignments from [data.user], then
    [userInfoDiv.classList.remove('hidden')]. *)
Definition display_user (user : User.t) (d : Dom) : Dom :=
  mkDom (username_value d) (email_value d) (age_value d) (form_hidden d)
    (message_textContent d) (message_className d) (message_hidden d)
    false
    (JsNumber (inject_Z (User.id user)))
    (JsString (User.username user))
    (JsString (User.email user))
    (JsNumber (User.age user))
    (submitBtn_disabled d) (submitBtn_textContent d).

(** The object the handler posts, as the server reads it.  The age is the
    double that [parseInt] returns; [JSON.stringify] sends [NaN] and
    [Infinity] as [null]. *)
Definition formData (d : Dom) : Body.t :=
  Body.mk (Some (trim (username_value d)))
          (Some (trim (email_value d)))
          (match parseInt (age_value d) with
           | Some n => option_map inject_Z (double_of_Z n)
           | None => None
           end).

Definition js_value_of_message (message : option string) : JsValue :=
  match message with
  | Some text => JsString text
  | None => undefined
  end.

(** The submit handler.  [fetch] stands for the request and the parsing of
    its response: the parsed body, or the error thrown. *)
Definition on_submit (fetch : Body.t -> Completion Json.t) (d : Dom) : Dom :=
  let formData := formData d in
  let d := set_submitBtn true "Registering..." d in
  let d :=
    match fetch formData with
    | Normal data =>
        if Json.success data
        then
          let d := hide_form_and_message d in
          match Json.user data with
          | Some user => display_user user d
          | None =>
              (* reading [data.user.id] throws; the catch clause runs *)
              showMessage
                (JsString "Failed to register user. Please ensure the server is running.")
                "error" d
          end
        else showMessage (js_value_of_message (Json.message data)) "error" d
    | Throw _ =>
        showMessage
          (JsString "Failed to register user. Please ensure the server is running.")
          "error" d
    end in
  set_submitBtn false "Register User" d.

(** Everything the page shows as text after the script ran. *)
Definition shown (d : Dom) : list JsValue :=
  [message_textContent d; userId d; displayUsername d; displayEmail d;
   displayAge d; JsString (submitBtn_textContent d)].

(* ===================================================================== *)
(** ** Vocabulary of the statements *)
(* ===================================================================== *)

(** No live record has this username (resp. email). *)
Definition username_free (username : string) (d : Database) : Prop :=
  forall row, In row (users d) -> col1 row <> username.

Definition email_free (email : string) (d : Database) : Prop :=
  forall row, In row (users d) -> col2 row <> email.

(** The age passes the range rule. *)
Definition age_in_range (age : Q) : Prop := (1 <= age /\ age <= 150)%Q.

(** A field is missing: absent, or an empty string. *)
Definition missing_field (b : Body.t) : Prop :=
  Body.username b = None \/ Body.username b = Some ""
  \/ Body.email b = None \/ Body.email b = Some ""
  \/ Body.age b = None.

(** The age is there and lies outside [1, 150]. *)
Definition age_out_of_range (b : Body.t) : Prop :=
  exists age, Body.age b = Some age /\ (age < 1 \/ 150 < age)%Q.

Definition fails_validation (b : Body.t) : Prop :=
  missing_field b \/ age_out_of_range b.

(** The row an accepted create inserts, and the database after it. *)
Definition created_row (now : Z) (username email : string) (age : Q)
  (d : Database) : Row :=
  (next_rowid d, username, email, bind_number age, now).

Definition after_insert (now : Z) (username email : string) (age : Q)
  (d : Database) : Database :=
  mkDatabase (users d ++ [created_row now username email age d]) (next_rowid d).

(** The bodies of the successful responses. *)
Definition created (u : User.t) : Response :=
  mkResponse 201 (Json.mk true (Some "User registered successfully") (Some u) None).

Definition found (u : User.t) : Response :=
  mkResponse 200 (Json.mk true None (Some u) None).

Definition listed (us : list User.t) : Response :=
  mkResponse 200 (Json.mk true None None (Some us)).

Definition deleted : Response :=
  mkResponse 200 (Json.mk true (Some "User deleted successfully") None None).

(** The user a response announces as newly created: that of a 201. *)
Definition created_user (response : Response) : option User.t :=
  if status response =? 201 then Json.user (body response) else None.

Fixpoint created_users (responses : list Response) : list User.t :=
  match responses with
  | [] => []
  | response :: rest =>
      match created_user response with
      | Some u => u :: created_users rest
      | None => created_users rest
      end
  end.

Definition created_ids (responses : list Response) : list Z :=
  map User.id (created_users responses).

(** [n] consecutive integers from [from] on. *)
Fixpoint count_up (from : Z) (n : nat) : list Z :=
  match n with
  | O => []
  | S n => from :: count_up (from + 1) n
  end.

(** What AUTOINCREMENT maintains: the counter is not negative and is at or
    above every live rowid. *)
Definition sequence_covers (d : Database) : Prop :=
  0 <= sqlite_sequence d
  /\ forall row, In row (users d) -> col0 row <= sqlite_sequence d.

Definition row_not_older (r1 r2 : Row) : Prop := col4 r2 <= col4 r1.

(** An example page: the three inputs filled in, nothing shown yet. *)
Definition filled_form (username email age : string) : Dom :=
  mkDom username email age false undefined "message hidden" true true
    undefined undefined undefined undefined false "Register User".

(** Newest first. *)
Definition not_older (u1 u2 : User.t) : Prop :=
  User.created_at u2 <= User.created_at u1.

(* ===================================================================== *)
(** ** Start-up, shutdown and the page talking to the server *)
(* ===================================================================== *)

(** [initDatabase()]: the database is read from the file at [dbPath] when
    there is one and is a new one otherwise; CREATE TABLE IF NOT EXISTS
    makes the empty [users] table in a new database and leaves a stored one
    as it is; [saveDatabase()] then writes the file.  [file] is what the file
    holds, [None] when it does not exist. *)
Definition initDatabase (file : option Database) (now : Z) : Server :=
  let d :=
    match file with
    | Some stored => stored
    | None => empty_database
    end in
  mkServer d d [] now.

(** The SIGINT handler up to the point where the process exits:
    [saveDatabase(); db.close()].  What is left is the file. *)
Definition on_SIGINT (s : Server) : Database :=
  dbPath (snd (saveDatabase s)).

(** The submit handler run against the server: [fetch] posts the form data,
    the handler of [POST /api/users] answers at clock reading [now], and the
    script reads the body of the answer (it does not look at the status). *)
Definition register (now : Z) (d : Dom) (s : Server) : Dom * Server :=
  let (response, s1) := serve now (POST_api_users (formData d)) s in
  (on_submit (fun _ => Normal (body response)) d, s1).

(** A record as the API lets it in: username and email not empty, age within
    [1, 150]. *)
Definition row_valid (row : Row) : Prop :=
  col1 row <> "" /\ col2 row <> "" /\ age_in_range (get_number (col3 row)).

(** The UNIQUE and PRIMARY KEY constraints of the schema. *)
Definition constraints_hold (d : Database) : Prop :=
  NoDup (map col0 (users d))
  /\ NoDup (map col1 (users d))
  /\ NoDup (map col2 (users d)).

(** The request is one of the three reading routes. *)
Definition is_read (r : Request) : bool :=
  match r with
  | GET_api_users | GET_api_users_id _ | GET_api_users_username _ => true
  | _ => false
  end.

(** The request is one of the two deleting routes. *)
Definition is_delete (r : Request) : bool :=
  match r with
  | DELETE_api_users_id _ | DELETE_api_users => true
  | _ => false
  end.

(** The string without the white space character it starts with, when it
    starts with one. *)
Definition skip_whitespace_character (s : string) : option string :=
  match s with
  | String c s' =>
      if is_js_whitespace c then Some s'
      else
        match s' with
        | String c2 s2 =>
            if is_js_whitespace2 c c2 then Some s2
            else
              match s2 with
              | String c3 s3 =>
                  if is_js_whitespace3 c c2 c3 then Some s3 else None
              | EmptyString => None
              end
        | EmptyString => None
        end
  | EmptyString => None
  end.

(** The string is made of white space characters only (it may be empty). *)
Inductive whitespace_only : string -> Prop :=
| whitespace_only_empty : whitespace_only ""
| whitespace_only_more s rest :
    skip_whitespace_character s = Some rest ->
    whitespace_only rest ->
    whitespace_only s.

(** The string starts (resp. ends) with a white space character. *)
Definition starts_with_whitespace (s : string) : Prop :=
  exists rest, skip_whitespace_character s = Some rest.

Definition ends_with_whitespace (s : string) : Prop :=
  exists front last, s = front ++ last /\ skip_whitespace_character last = Some "".

(** [posted] is [input] without the white space around it: white space only
    was cut off at either end, and none is left there. *)
Definition trimmed_of (input posted : string) : Prop :=
  (exists before after,
      input = before ++ posted ++ after
      /\ whitespace_only before /\ whitespace_only after)
  /\ ~ starts_with_whitespace posted
  /\ ~ ends_with_whitespace posted.

(** JavaScript reads the parameter as exactly the integer its digits denote
    (one that a double holds), or as [NaN]. *)
Definition reads_exactly (id : string) : Prop :=
  match parseInt id with
  | Some n => double_of_Z n = Some n
  | None => True
  end.

(** The request, when it is a create, carries a body that the page built. *)
Definition from_page (request : Z * Request) : Prop :=
  match snd request with
  | POST_api_users b => exists d, b = formData d
  | _ => True
  end.

(* ===================================================================== *)
(** ** [parseInt] reads back what a template literal prints *)
(* ===================================================================== *)

Ltac eval_digit :=
  match goal with
  | |- context [digit_value ?c] =>
      let v := eval vm_compute in (digit_value c) in
      change (digit_value c) with v
  end;
  cbv iota beta;
  match goal with
  | |- context [?d <? 10] => change (d <? 10) with true
  end;
  cbv iota.

Lemma parse_digits_acc d : forall acc : positive,
  parse_digits 10 (Some (Z.pos acc)) (NilEmpty.string_of_uint d)
  = Some (Z.pos (Pos.of_uint_acc d acc)).
Proof.
  induction d; intros acc;
    cbn [NilEmpty.string_of_uint parse_digits Pos.of_uint_acc];
    [reflexivity|..];
    (eval_digit; rewrite <- IHd; f_equal; f_equal; lia).
Qed.

Lemma parse_digits_zero d :
  parse_digits 10 (Some 0) (NilEmpty.string_of_uint d)
  = Some (Z.of_N (Pos.of_uint d)).
Proof.
  induction d; cbn [NilEmpty.string_of_uint parse_digits Pos.of_uint];
    [reflexivity|..]; eval_digit.
  1: exact IHd.
  all: cbn [Z.of_N]; rewrite <- parse_digits_acc; reflexivity.
Qed.

Lemma parseInt_digits d :
  d <> Decimal.Nil ->
  parseInt (NilEmpty.string_of_uint d)
  = option_map (Z.mul 1) (parse_digits 10 (Some 0) (NilEmpty.string_of_uint d))
  /\ parseInt (String "-" (NilEmpty.string_of_uint d))
  = option_map (Z.mul (-1)) (parse_digits 10 (Some 0) (NilEmpty.string_of_uint d)).
Proof.
  intros Hd.
  destruct d as [|d|d|d|d|d|d|d|d|d|d]; [congruence|..]; try (split; reflexivity).
  destruct d; split; reflexivity.
Qed.

(** The path a client builds from an id, [`/api/users/${id}`], is parsed back
    to that id. *)
Lemma parseInt_js_string_of_int n : parseInt (js_string_of_int n) = Some n.
Proof.
  unfold js_string_of_int.
  destruct n as [|p|p]; [reflexivity|..]; cbn [Z.to_int NilZero.string_of_int];
    pose proof (Unsigned.to_uint_nonnil p) as Hnil;
    destruct (parseInt_digits _ Hnil) as [Hpos Hneg];
    unfold NilZero.string_of_uint;
    destruct (Pos.to_uint p) eqn:Hd; try congruence;
    rewrite <- Hd in *;
    first [rewrite Hpos | rewrite Hneg];
    rewrite parse_digits_zero, Unsigned.of_to; reflexivity.
Qed.

(* ===================================================================== *)
(** ** Facts about the table *)
(* ===================================================================== *)

Lemma username_free_existsb username d :
  username_free username d ->
  existsb (username_matches username) (users d) = false.
Proof.
  intros Hfree. apply not_true_is_false. intros Hex.
  apply existsb_exists in Hex. destruct Hex as [row [Hin Hm]].
  apply String.eqb_eq in Hm. exact (Hfree row Hin Hm).
Qed.

Lemma email_free_existsb email d :
  email_free email d ->
  existsb (email_matches email) (users d) = false.
Proof.
  intros Hfree. apply not_true_is_false. intros Hex.
  apply existsb_exists in Hex. destruct Hex as [row [Hin Hm]].
  apply String.eqb_eq in Hm. exact (Hfree row Hin Hm).
Qed.

Lemma username_taken_existsb username d row :
  In row (users d) -> col1 row = username ->
  existsb (username_matches username) (users d) = true.
Proof.
  intros Hin Heq. apply existsb_exists. exists row. split; [exact Hin|].
  apply String.eqb_eq. exact Heq.
Qed.

Lemma filter_none {A} (f : A -> bool) (l : list A) :
  (forall x, In x l -> f x = false) -> filter f l = [].
Proof.
  induction l as [|a l IH]; intros H; simpl; [reflexivity|].
  rewrite (H a (or_introl eq_refl)). apply IH. intros x Hx. apply H. now right.
Qed.

Lemma filter_all {A} (f : A -> bool) (l : list A) :
  (forall x, In x l -> f x = true) -> filter f l = l.
Proof.
  induction l as [|a l IH]; intros H; simpl; [reflexivity|].
  rewrite (H a (or_introl eq_refl)). f_equal. apply IH. intros x Hx. apply H. now right.
Qed.

Lemma max_rowid_ge rows row : In row rows -> col0 row <= max_rowid rows.
Proof.
  induction rows as [|r rows IH]; simpl; [tauto|].
  intros [->|Hin]; [lia|]. specialize (IH Hin). lia.
Qed.

(** The id AUTOINCREMENT hands out is above every live id and above the
    counter. *)
Lemma next_rowid_fresh d row : In row (users d) -> col0 row < next_rowid d.
Proof.
  intros Hin. apply max_rowid_ge in Hin. unfold next_rowid. lia.
Qed.

Lemma next_rowid_above_sequence d : sqlite_sequence d < next_rowid d.
Proof. unfold next_rowid. lia. Qed.

(** A number goes through the [age] column unchanged. *)
Lemma get_number_bind_number q : (get_number (bind_number q) == q)%Q.
Proof.
  unfold bind_number.
  destruct (Pos.eqb_spec (Qden (Qred q)) 1) as [Hden|Hden]; simpl; [|reflexivity].
  rewrite <- (Qred_correct q) at 2.
  destruct (Qred q) as [n dq]. simpl in Hden. subst dq. reflexivity.
Qed.

Lemma select_username_after_insert rows username row :
  (forall r, In r rows -> col1 r <> username) ->
  col1 row = username ->
  filter (username_matches username) (rows ++ [row]) = [row].
Proof.
  intros Hfree Hrow. rewrite filter_app, filter_none; simpl.
  - unfold username_matches. rewrite Hrow, String.eqb_refl. reflexivity.
  - intros r Hin. apply String.eqb_neq. auto.
Qed.

Lemma select_id_after_insert rows row :
  (forall r, In r rows -> col0 r < col0 row) ->
  filter (id_matches (Some (col0 row))) (rows ++ [row]) = [row].
Proof.
  intros Hlt. rewrite filter_app, filter_none; simpl.
  - rewrite Z.eqb_refl. reflexivity.
  - intros r Hin. simpl. apply Z.eqb_neq. specialize (Hlt r Hin). lia.
Qed.

Lemma includes_unique_username :
  includes "UNIQUE constraint failed: users.username" "UNIQUE constraint failed" = true.
Proof. reflexivity. Qed.

Lemma includes_unique_email :
  includes "UNIQUE constraint failed: users.email" "UNIQUE constraint failed" = true.
Proof. reflexivity. Qed.

(** What the two validation tests compute on a present field. *)
Lemma js_not_string_present s : s <> "" -> js_not_string (Some s) = false.
Proof. intros H. simpl. apply String.eqb_neq. exact H. Qed.

Lemma age_in_range_passes age :
  age_in_range age ->
  js_not_number (Some age) = false /\ js_lt age 1 = false /\ js_lt 150 age = false.
Proof.
  intros [Hlo Hhi]. unfold js_not_number, js_lt. repeat split.
  - apply not_true_is_false. intros H. apply Qeq_bool_iff in H.
    rewrite H in Hlo. unfold Qle in Hlo. simpl in Hlo. lia.
  - apply negb_false_iff, Qle_bool_iff. exact Hlo.
  - apply negb_false_iff, Qle_bool_iff. exact Hhi.
Qed.

(* ===================================================================== *)
(** ** What [POST /api/users] does, case by case *)
(* ===================================================================== *)

Lemma serve_post_created now s username email age :
  username <> "" -> email <> "" -> age_in_range age ->
  username_free username (db s) -> email_free email (db s) ->
  serve now (POST_api_users (Body.mk (Some username) (Some email) (Some age))) s =
  (created (user_of_row (created_row now username email age (db s))),
   mkServer (after_insert now username email age (db s))
            (after_insert now username email age (db s))
            (SELECT_users_WHERE_username username
               :: INSERT_INTO_users username email age :: issued s)
            now).
Proof.
  intros Hu He Hage Hfu Hfe.
  destruct (age_in_range_passes age Hage) as [Hz [Hlo Hhi]].
  unfold serve, route, post_api_users, try_catch, bind. cbn [Body.username Body.email Body.age].
  rewrite (js_not_string_present _ Hu), (js_not_string_present _ He), Hz, Hlo, Hhi.
  cbn [orb].
  unfold db_run, note. cbn [db dbPath issued clock execute].
  rewrite (username_free_existsb _ _ Hfu), (email_free_existsb _ _ Hfe).
  unfold saveDatabase, db_exec, note. cbn [db dbPath issued clock execute select users].
  pose proof (select_username_after_insert (users (db s)) username
                (created_row now username email age (db s)) Hfu eq_refl) as Hsel.
  unfold created_row in Hsel. unfold Row in *. rewrite Hsel. reflexivity.
Qed.

(** A request that fails a validation test is answered 400 and the handler
    returns with the server exactly as it found it. *)
Lemma serve_post_missing now s req_body :
  js_not_string (Body.username req_body)
    || js_not_string (Body.email req_body)
    || js_not_number (Body.age req_body) = true ->
  serve now (POST_api_users req_body) s =
  (failure 400 "All fields are required",
   mkServer (db s) (dbPath s) (issued s) now).
Proof.
  intros H. unfold serve, route, post_api_users, try_catch. rewrite H. reflexivity.
Qed.

Lemma serve_post_out_of_range now s username email age :
  username <> "" -> email <> "" -> Qeq_bool age 0 = false ->
  js_lt age 1 || js_lt 150 age = true ->
  serve now (POST_api_users (Body.mk (Some username) (Some email) (Some age))) s =
  (failure 400 "Age must be between 1 and 150",
   mkServer (db s) (dbPath s) (issued s) now).
Proof.
  intros Hu He Hz H. unfold serve, route, post_api_users, try_catch.
  cbn [Body.username Body.email Body.age].
  rewrite (js_not_string_present _ Hu), (js_not_string_present _ He).
  unfold js_not_number. rewrite Hz, H. reflexivity.
Qed.

(** A valid request whose username or email is held by a live record is
    answered 409; only the failed INSERT was issued. *)
Lemma serve_post_conflict now s username email age :
  username <> "" -> email <> "" -> age_in_range age ->
  existsb (username_matches username) (users (db s))
    || existsb (email_matches email) (users (db s)) = true ->
  serve now (POST_api_users (Body.mk (Some username) (Some email) (Some age))) s =
  (failure 409 "Username or email already exists",
   mkServer (db s) (dbPath s) (INSERT_INTO_users username email age :: issued s) now).
Proof.
  intros Hu He Hage Htaken.
  destruct (age_in_range_passes age Hage) as [Hz [Hlo Hhi]].
  unfold serve, route, post_api_users, try_catch, bind. cbn [Body.username Body.email Body.age].
  rewrite (js_not_string_present _ Hu), (js_not_string_present _ He), Hz, Hlo, Hhi.
  cbn [orb].
  unfold db_run, note. cbn [db dbPath issued clock execute].
  destruct (existsb (username_matches username) (users (db s))).
  - rewrite includes_unique_username. reflexivity.
  - cbn [orb] in Htaken. rewrite Htaken, includes_unique_email. reflexivity.
Qed.

(* ===================================================================== *)
(** ** What the reading and the deleting routes do *)
(* ===================================================================== *)

Lemma serve_get_id now s id :
  serve now (GET_api_users_id id) s =
  (match filter (id_matches (parseInt id)) (users (db s)) with
   | row :: _ => found (user_of_row row)
   | [] => failure 404 "User not found"
   end,
   mkServer (db s) (dbPath s)
            (SELECT_users_WHERE_id (parseInt id) :: issued s) now).
Proof.
  unfold serve, route, get_api_users_id, try_catch, bind, db_exec, note.
  cbn [db dbPath issued clock execute select].
  destruct (filter (id_matches (parseInt id)) (users (db s))); reflexivity.
Qed.

Lemma serve_get_username now s username :
  serve now (GET_api_users_username username) s =
  (match filter (username_matches username) (users (db s)) with
   | row :: _ => found (user_of_row row)
   | [] => failure 404 "User not found"
   end,
   mkServer (db s) (dbPath s)
            (SELECT_users_WHERE_username username :: issued s) now).
Proof.
  unfold serve, route, get_api_users_username, try_catch, bind, db_exec, note.
  cbn [db dbPath issued clock execute select].
  destruct (filter (username_matches username) (users (db s))); reflexivity.
Qed.

Lemma serve_get_all now s :
  serve now GET_api_users s =
  (listed (map user_of_row (order_by_created_at_desc (users (db s)))),
   mkServer (db s) (dbPath s)
            (SELECT_users_ORDER_BY_created_at_DESC :: issued s) now).
Proof.
  unfold serve, route, get_api_users, try_catch, bind, db_exec, note.
  cbn [db dbPath issued clock execute select].
  destruct (order_by_created_at_desc (users (db s))); reflexivity.
Qed.

(** The database a DELETE by id leaves. *)
Lemma serve_delete_id now s id :
  let d := mkDatabase
             (filter (fun row => negb (id_matches (parseInt id) row)) (users (db s)))
             (sqlite_sequence (db s)) in
  serve now (DELETE_api_users_id id) s =
  (deleted,
   mkServer d d (DELETE_FROM_users_WHERE_id (parseInt id) :: issued s) now).
Proof. reflexivity. Qed.

Lemma serve_delete_all now s :
  let d := mkDatabase [] (sqlite_sequence (db s)) in
  serve now DELETE_api_users s =
  (mkResponse 200 (Json.mk true (Some "All users deleted successfully") None None),
   mkServer d d (DELETE_FROM_users :: issued s) now).
Proof. reflexivity. Qed.

Lemma filter_idempotent {A} (f : A -> bool) (l : list A) :
  filter f (filter f l) = filter f l.
Proof.
  apply filter_all. intros x Hx. apply filter_In in Hx. tauto.
Qed.

(* ===================================================================== *)
(** ** The ordering of the list *)
(* ===================================================================== *)

Lemma insert_by_created_at_perm row sorted :
  Permutation (row :: sorted) (insert_by_created_at row sorted).
Proof.
  induction sorted as [|r rest IH]; simpl; [reflexivity|].
  destruct (col4 r <=? col4 row); [reflexivity|].
  rewrite perm_swap. now apply perm_skip.
Qed.

Lemma order_by_created_at_desc_perm rows :
  Permutation rows (order_by_created_at_desc rows).
Proof.
  induction rows as [|row rows IH]; simpl; [constructor|].
  rewrite <- insert_by_created_at_perm. now apply perm_skip.
Qed.

Lemma insert_by_created_at_sorted row sorted :
  StronglySorted row_not_older sorted ->
  StronglySorted row_not_older (insert_by_created_at row sorted).
Proof.
  induction 1 as [|r rest Hsorted IH Hall]; simpl.
  - repeat constructor.
  - destruct (Z.leb_spec (col4 r) (col4 row)) as [Hle|Hgt].
    + constructor; [constructor; assumption|].
      constructor; [exact Hle|].
      eapply Forall_impl; [|exact Hall]. unfold row_not_older. intros; lia.
    + constructor; [exact IH|].
      rewrite <- insert_by_created_at_perm.
      constructor; [unfold row_not_older; lia | exact Hall].
Qed.

Lemma order_by_created_at_desc_sorted rows :
  StronglySorted row_not_older (order_by_created_at_desc rows).
Proof.
  induction rows as [|row rows IH]; simpl; [constructor|].
  now apply insert_by_created_at_sorted.
Qed.

Lemma StronglySorted_map_user_of_row rows :
  StronglySorted row_not_older rows ->
  StronglySorted not_older (map user_of_row rows).
Proof.
  induction 1 as [|r rest Hsorted IH Hall]; simpl; constructor; [exact IH|].
  apply Forall_map. exact Hall.
Qed.

(* ===================================================================== *)
(** ** Create and read back *)
(* ===================================================================== *)

Lemma user_of_created_row now username email age d :
  let u := user_of_row (created_row now username email age d) in
  User.id u = next_rowid d
  /\ User.created_at u = now
  /\ User.username u = username
  /\ User.email u = email
  /\ (User.age u == age)%Q.
Proof.
  cbn. repeat split. apply get_number_bind_number.
Qed.

Lemma get_by_id_after_insert later now s0 iss username email age id :
  parseInt id = Some (next_rowid (db s0)) ->
  let d := after_insert now username email age (db s0) in
  fst (serve later (GET_api_users_id id) (mkServer d d iss now))
  = found (user_of_row (created_row now username email age (db s0))).
Proof.
  intros Hid d. rewrite serve_get_id, Hid. cbn [fst db users d after_insert].
  pose proof (select_id_after_insert (users (db s0))
                (created_row now username email age (db s0))) as Hsel.
  cbn [created_row col0] in Hsel. unfold created_row, Row in *.
  rewrite Hsel; [reflexivity|].
  intros r Hin. apply next_rowid_fresh. exact Hin.
Qed.

(** C1 : Round trip of create and get-by-id.  For every username and email
    that are present and held by no live record and every age in [1, 150],
    POST /api/users answers 201 with a user that carries the id the store
    assigned (the next rowid, above every live id) and the clock reading as
    [created_at], and whose username, email and age are the submitted ones; a
    later GET /api/users/:id with that id answers 200 with that same user. *)
Theorem create_then_get_by_id_round_trip
  (now later : Z) (s : Server) (username email : string) (age : Q) :
  username <> "" -> email <> "" -> age_in_range age ->
  username_free username (db s) -> email_free email (db s) ->
  exists (u : User.t) (s1 : Server),
    serve now (POST_api_users (Body.mk (Some username) (Some email) (Some age))) s
    = (created u, s1)
    /\ User.id u = next_rowid (db s)
    /\ (forall row, In row (users (db s)) -> col0 row < User.id u)
    /\ User.created_at u = now
    /\ User.username u = username
    /\ User.email u = email
    /\ (User.age u == age)%Q
    /\ (forall id, parseInt id = Some (User.id u) ->
          fst (serve later (GET_api_users_id id) s1) = found u)
    /\ fst (serve later (GET_api_users_id (js_string_of_int (User.id u))) s1)
       = found u.
Proof.
  intros Hu He Hage Hfu Hfe.
  eexists. eexists. split; [apply serve_post_created; assumption|].
  destruct (user_of_created_row now username email age (db s))
    as [Hid [Hat [Hun [Hem Hag]]]].
  split; [exact Hid|].
  split; [intros row Hin; rewrite Hid; apply next_rowid_fresh; exact Hin|].
  repeat (split; [assumption|]).
  split.
  - intros id Hparse. apply get_by_id_after_insert. rewrite Hparse. exact (f_equal Some Hid).
  - apply get_by_id_after_insert. rewrite parseInt_js_string_of_int. exact (f_equal Some Hid).
Qed.

Lemma create_then_get_by_id_round_trip_witness :
  exists (u : User.t) (s1 : Server),
    serve 100 (POST_api_users
                 (Body.mk (Some "alice") (Some "alice@example.com") (Some 25%Q)))
          (initial_server 0)
    = (created u, s1)
    /\ User.id u = 1
    /\ (forall row, In row (users (db (initial_server 0))) -> col0 row < User.id u)
    /\ User.created_at u = 100
    /\ User.username u = "alice"
    /\ User.email u = "alice@example.com"
    /\ (User.age u == 25)%Q
    /\ (forall id, parseInt id = Some (User.id u) ->
          fst (serve 101 (GET_api_users_id id) s1) = found u)
    /\ fst (serve 101 (GET_api_users_id (js_string_of_int (User.id u))) s1)
       = found u.
Proof.
  apply (create_then_get_by_id_round_trip 100 101 (initial_server 0)
           "alice" "alice@example.com" 25%Q).
  - discriminate.
  - discriminate.
  - split; discriminate.
  - intros row [].
  - intros row [].
Defined.

(* ===================================================================== *)
(** ** Conflicts and validation *)
(* ===================================================================== *)

(** C2 : A uniqueness conflict is atomic.  When a live record holds username
    [U], a create with username [U], any (present) email and any age in
    [1, 150] is answered 409 "Username or email already exists"; the
    database and its file are what they were, so the original record is still
    there with the email it had, and a lookup by that username answers as
    before. *)
Theorem duplicate_username_conflict_is_atomic
  (now later : Z) (s : Server) (original : Row) (email : string) (age : Q) :
  In original (users (db s)) ->
  col1 original <> "" -> email <> "" -> age_in_range age ->
  exists s1 : Server,
    serve now (POST_api_users
                 (Body.mk (Some (col1 original)) (Some email) (Some age))) s
    = (failure 409 "Username or email already exists", s1)
    /\ store s1 = store s
    /\ In original (users (db s1))
    /\ fst (serve later (GET_api_users_username (col1 original)) s1)
       = fst (serve later (GET_api_users_username (col1 original)) s).
Proof.
  intros Hin Hu He Hage.
  eexists. split.
  - apply serve_post_conflict; try assumption.
    rewrite (username_taken_existsb _ _ _ Hin eq_refl). reflexivity.
  - split; [reflexivity|]. split; [exact Hin|].
    rewrite !serve_get_username. reflexivity.
Qed.

Lemma duplicate_username_conflict_is_atomic_witness :
  let s := mkServer (mkDatabase [(1, "alice", "alice@example.com", INTEGER 25, 100)] 1)
                    (mkDatabase [(1, "alice", "alice@example.com", INTEGER 25, 100)] 1)
                    [] 100 in
  exists s1 : Server,
    serve 101 (POST_api_users
                 (Body.mk (Some "alice") (Some "other@example.com") (Some 30%Q))) s
    = (failure 409 "Username or email already exists", s1)
    /\ store s1 = store s
    /\ In (1, "alice", "alice@example.com", INTEGER 25, 100) (users (db s1))
    /\ fst (serve 102 (GET_api_users_username "alice") s1)
       = fst (serve 102 (GET_api_users_username "alice") s).
Proof.
  intros s.
  apply (duplicate_username_conflict_is_atomic 101 102 s
           (1, "alice", "alice@example.com", INTEGER 25, 100)
           "other@example.com" 30%Q).
  - left. reflexivity.
  - discriminate.
  - discriminate.
  - split; discriminate.
Defined.

Lemma missing_field_is_falsy b :
  missing_field b ->
  js_not_string (Body.username b)
    || js_not_string (Body.email b)
    || js_not_number (Body.age b) = true.
Proof.
  intros [H|[H|[H|[H|H]]]]; rewrite H; cbn;
    rewrite ?orb_true_r; reflexivity.
Qed.

Lemma out_of_range_is_rejected age :
  (age < 1 \/ 150 < age)%Q -> js_lt age 1 || js_lt 150 age = true.
Proof.
  unfold js_lt. intros [H|H]; apply orb_true_iff; [left|right];
    apply negb_true_iff, not_true_is_false; intros Hle;
    apply Qle_bool_iff in Hle; apply Qle_not_lt in Hle; exact (Hle H).
Qed.

(** Whatever fails validation gets one of the two 400 answers, and the
    handler returns with database, file and log of issued statements
    untouched. *)
Lemma serve_post_invalid now s b :
  fails_validation b ->
  exists message,
    serve now (POST_api_users b) s
    = (failure 400 message, mkServer (db s) (dbPath s) (issued s) now).
Proof.
  intros Hfail.
  destruct (js_not_string (Body.username b)
              || js_not_string (Body.email b)
              || js_not_number (Body.age b)) eqn:Hfalsy.
  - eexists. apply serve_post_missing. exact Hfalsy.
  - destruct Hfail as [Hmiss|[age [Hage Hout]]].
    + rewrite (missing_field_is_falsy b Hmiss) in Hfalsy. discriminate.
    + apply orb_false_iff in Hfalsy. destruct Hfalsy as [Hfalsy Hzero].
      apply orb_false_iff in Hfalsy. destruct Hfalsy as [Hu He].
      destruct b as [[username|] [email|] [a|]]; cbn in *; try discriminate.
      injection Hage as ->.
      eexists. apply serve_post_out_of_range.
      * apply String.eqb_neq. exact Hu.
      * apply String.eqb_neq. exact He.
      * exact Hzero.
      * apply out_of_range_is_rejected. exact Hout.
Qed.

(** C3 : Validation strictly precedes the store.  A create whose input fails
    validation (a missing field or an age outside [1, 150]) is answered 400
    with no statement issued to the database: database, file and the log of
    issued statements are unchanged.  This holds in every state, so also when
    the username or email duplicates a live record: the answer is then 400,
    not 409. *)
Theorem validation_precedes_store (now : Z) (s : Server) (b : Body.t) :
  fails_validation b ->
  let (response, s1) := serve now (POST_api_users b) s in
  status response = 400
  /\ Json.success (body response) = false
  /\ issued s1 = issued s
  /\ store s1 = store s.
Proof.
  intros Hfail. destruct (serve_post_invalid now s b Hfail) as [message ->].
  repeat split.
Qed.

Lemma validation_precedes_store_witness :
  let s := mkServer (mkDatabase [(1, "alice", "alice@example.com", INTEGER 25, 100)] 1)
                    (mkDatabase [(1, "alice", "alice@example.com", INTEGER 25, 100)] 1)
                    [] 100 in
  let (response, s1) :=
    serve 101 (POST_api_users
                 (Body.mk (Some "alice") (Some "alice@example.com") (Some 200%Q))) s in
  status response = 400
  /\ Json.success (body response) = false
  /\ issued s1 = issued s
  /\ store s1 = store s.
Proof.
  intros s.
  apply (validation_precedes_store 101 s
           (Body.mk (Some "alice") (Some "alice@example.com") (Some 200%Q))).
  right. exists 200%Q. split; [reflexivity|]. right. reflexivity.
Defined.

(** C4 : Age boundaries.  With username and email present and held by no live
    record, a create with age 1 and a create with age 150 are both answered
    201 with the user as submitted, the table gains exactly that record, and
    a GET by that username afterwards returns it; a create with age 0 and one
    with age 151 are both answered 400 and leave no record: the store is
    unchanged and a GET by that username afterwards answers 404. *)
Theorem age_boundaries
  (now later : Z) (s : Server) (username email : string) :
  username <> "" -> email <> "" ->
  username_free username (db s) -> email_free email (db s) ->
  let post age :=
    serve now (POST_api_users (Body.mk (Some username) (Some email) (Some age))) s in
  let absent_after (s1 : Server) :=
    fst (serve later (GET_api_users_username username) s1)
    = failure 404 "User not found" in
  let stored (n : Z) :=
    let u := User.mk (next_rowid (db s)) username email (inject_Z n) now in
    fst (post (inject_Z n)) = created u
    /\ users (db (snd (post (inject_Z n))))
       = (users (db s) ++ [(next_rowid (db s), username, email, INTEGER n, now)])%list
    /\ fst (serve later (GET_api_users_username username) (snd (post (inject_Z n))))
       = found u in
  status (fst (post 1%Q)) = 201
  /\ status (fst (post 150%Q)) = 201
  /\ (status (fst (post 0%Q)) = 400 /\ absent_after (snd (post 0%Q)))
  /\ (status (fst (post 151%Q)) = 400 /\ absent_after (snd (post 151%Q)))
  /\ stored 1
  /\ stored 150
  /\ store (snd (post 0%Q)) = store s
  /\ store (snd (post 151%Q)) = store s.
Proof.
  intros Hu He Hfu Hfe post absent_after stored. unfold post, absent_after, stored.
  assert (Habsent : forall iss t,
             fst (serve later (GET_api_users_username username)
                    (mkServer (db s) (dbPath s) iss t))
             = failure 404 "User not found").
  { intros iss t. rewrite serve_get_username. cbn [fst db].
    rewrite filter_none; [reflexivity|].
    intros r Hin. apply String.eqb_neq. exact (Hfu r Hin). }
  assert (Hstored : forall n : Z, 1 <= n <= 150 ->
             bind_number (inject_Z n) = INTEGER n ->
             let u := User.mk (next_rowid (db s)) username email (inject_Z n) now in
             let s1 := snd (serve now (POST_api_users
                                         (Body.mk (Some username) (Some email)
                                                  (Some (inject_Z n)))) s) in
             fst (serve now (POST_api_users
                               (Body.mk (Some username) (Some email)
                                        (Some (inject_Z n)))) s) = created u
             /\ users (db s1)
                = (users (db s) ++ [(next_rowid (db s), username, email, INTEGER n, now)])%list
             /\ fst (serve later (GET_api_users_username username) s1) = found u).
  { intros n Hn Hbind. cbn zeta.
    rewrite serve_post_created; try assumption;
      [|split; unfold Qle, inject_Z; cbn; lia].
    cbn [fst snd db users after_insert].
    unfold user_of_row, created_row. cbn [col0 col1 col2 col3 col4]. rewrite Hbind.
    split; [reflexivity|]. split; [reflexivity|].
    rewrite serve_get_username. cbn [fst db users after_insert].
    unfold created_row. rewrite Hbind.
    pose proof (select_username_after_insert (users (db s)) username
                  (next_rowid (db s), username, email, INTEGER n, now)
                  Hfu eq_refl) as Hsel.
    unfold Row in *. rewrite Hsel. reflexivity. }
  split; [|split; [|split; [|split; [|split; [|split]]]]].
  - rewrite serve_post_created; try assumption; [reflexivity|split; discriminate].
  - rewrite serve_post_created; try assumption; [reflexivity|split; discriminate].
  - rewrite serve_post_missing.
    + split; [reflexivity|apply Habsent].
    + cbn. rewrite !orb_true_r. reflexivity.
  - rewrite serve_post_out_of_range; try assumption; try reflexivity.
    split; [reflexivity|apply Habsent].
  - apply (Hstored 1); [lia|reflexivity].
  - apply (Hstored 150); [lia|reflexivity].
  - split.
    + rewrite serve_post_missing; [reflexivity|].
      cbn. rewrite !orb_true_r. reflexivity.
    + rewrite serve_post_out_of_range; try assumption; reflexivity.
Qed.

Lemma age_boundaries_witness :
  let s := initial_server 0 in
  let post age :=
    serve 100 (POST_api_users
                 (Body.mk (Some "alice") (Some "alice@example.com") (Some age))) s in
  let absent_after (s1 : Server) :=
    fst (serve 101 (GET_api_users_username "alice") s1)
    = failure 404 "User not found" in
  let stored (n : Z) :=
    let u := User.mk 1 "alice" "alice@example.com" (inject_Z n) 100 in
    fst (post (inject_Z n)) = created u
    /\ users (db (snd (post (inject_Z n))))
       = [(1, "alice", "alice@example.com", INTEGER n, 100)]
    /\ fst (serve 101 (GET_api_users_username "alice") (snd (post (inject_Z n))))
       = found u in
  status (fst (post 1%Q)) = 201
  /\ status (fst (post 150%Q)) = 201
  /\ (status (fst (post 0%Q)) = 400 /\ absent_after (snd (post 0%Q)))
  /\ (status (fst (post 151%Q)) = 400 /\ absent_after (snd (post 151%Q)))
  /\ stored 1
  /\ stored 150
  /\ store (snd (post 0%Q)) = store s
  /\ store (snd (post 151%Q)) = store s.
Proof.
  intros s.
  apply (age_boundaries 100 101 s "alice" "alice@example.com").
  - discriminate.
  - discriminate.
  - intros row [].
  - intros row [].
Defined.

(** C5 : The failure returned for a request with all three fields present and
    age 0.  No field is missing and the age is out of range, yet the handler
    answers with the missing-field message, not with the age-out-of-range
    one: the presence test [!age] takes the number 0 for an absent field. *)
Theorem age_zero_is_reported_as_missing_field :
  let b := Body.mk (Some "alice") (Some "alice@example.com") (Some 0%Q) in
  ~ missing_field b
  /\ age_out_of_range b
  /\ fst (serve 100 (POST_api_users b) (initial_server 0))
     = failure 400 "All fields are required".
Proof.
  cbn zeta. split; [|split].
  - intros [H|[H|[H|[H|H]]]]; discriminate H.
  - exists 0%Q. split; [reflexivity|]. left. reflexivity.
  - reflexivity.
Qed.

(** Away from zero the classification is the stated one: with all fields
    present, an age outside [1, 150] other than 0 is answered with the
    age-out-of-range message. *)
Lemma nonzero_age_out_of_range_message now s username email age :
  username <> "" -> email <> "" -> ~ (age == 0)%Q ->
  (age < 1 \/ 150 < age)%Q ->
  fst (serve now (POST_api_users (Body.mk (Some username) (Some email) (Some age))) s)
  = failure 400 "Age must be between 1 and 150".
Proof.
  intros Hu He Hnz Hout. rewrite serve_post_out_of_range; try assumption.
  - reflexivity.
  - apply not_true_is_false. intros H. apply Qeq_bool_iff in H. exact (Hnz H).
  - apply out_of_range_is_rejected. exact Hout.
Qed.

(* ===================================================================== *)
(** ** Listing and deleting *)
(* ===================================================================== *)

(** C6 : The list.  In every state GET /api/users answers 200 with success
    true and a sequence that holds every live user exactly once (it is a
    permutation of the table), ordered by [created_at] descending; it is the
    empty sequence when the table is empty.  The store is not changed. *)
Theorem list_is_complete_and_newest_first (now : Z) (s : Server) :
  exists (us : list User.t) (s1 : Server),
    serve now GET_api_users s = (listed us, s1)
    /\ Permutation (map user_of_row (users (db s))) us
    /\ StronglySorted not_older us
    /\ (users (db s) = [] -> us = [])
    /\ store s1 = store s.
Proof.
  eexists. eexists. split; [apply serve_get_all|].
  split; [apply Permutation_map, order_by_created_at_desc_perm|].
  split; [apply StronglySorted_map_user_of_row, order_by_created_at_desc_sorted|].
  split; [intros ->; reflexivity|reflexivity].
Qed.

(** C7 : Delete is idempotent.  For every id parameter, whether or not a
    record has that id, DELETE /api/users/:id answers 200 with success true;
    the same delete again answers the same and leaves database and file as
    the first one left them. *)
Theorem delete_is_idempotent (now later : Z) (s : Server) (id : string) :
  let (first, s1) := serve now (DELETE_api_users_id id) s in
  let (second, s2) := serve later (DELETE_api_users_id id) s1 in
  first = deleted
  /\ second = deleted
  /\ status deleted = 200
  /\ Json.success (body deleted) = true
  /\ store s2 = store s1.
Proof.
  rewrite (serve_delete_id now s id). cbn zeta.
  rewrite serve_delete_id. cbn [db users sqlite_sequence].
  repeat (split; [reflexivity|]).
  unfold store. cbn [db dbPath]. rewrite filter_idempotent. reflexivity.
Qed.

(* ===================================================================== *)
(** ** Ids over a whole run *)
(* ===================================================================== *)

Lemma existsb_false_username_free username d :
  existsb (username_matches username) (users d) = false -> username_free username d.
Proof.
  intros Hex row Hin Heq.
  rewrite (username_taken_existsb username d row Hin Heq) in Hex. discriminate.
Qed.

Lemma existsb_false_email_free email d :
  existsb (email_matches email) (users d) = false -> email_free email d.
Proof.
  intros Hex row Hin Heq.
  assert (existsb (email_matches email) (users d) = true) as Htrue.
  { apply existsb_exists. exists row. split; [exact Hin|]. apply String.eqb_eq. exact Heq. }
  rewrite Htrue in Hex. discriminate.
Qed.

(** Every create falls in one of two cases: it is refused (400 or 409) and
    database and file stay as they are, or it is accepted and the database
    gains exactly the created row. *)
Lemma serve_post_cases now s b :
  (exists code message iss,
      code <> 201
      /\ serve now (POST_api_users b) s
         = (failure code message, mkServer (db s) (dbPath s) iss now))
  \/ (exists username email age iss,
         let d := after_insert now username email age (db s) in
         serve now (POST_api_users b) s
         = (created (user_of_row (created_row now username email age (db s))),
            mkServer d d iss now)).
Proof.
  destruct (js_not_string (Body.username b)
              || js_not_string (Body.email b)
              || js_not_number (Body.age b)) eqn:Hfalsy.
  { left. exists 400, "All fields are required", (issued s).
    split; [discriminate|]. apply serve_post_missing. exact Hfalsy. }
  apply orb_false_iff in Hfalsy. destruct Hfalsy as [Hfalsy Hzero].
  apply orb_false_iff in Hfalsy. destruct Hfalsy as [Hu He].
  destruct b as [[username|] [email|] [age|]]; cbn in Hu, He, Hzero; try discriminate.
  apply String.eqb_neq in Hu. apply String.eqb_neq in He.
  destruct (js_lt age 1 || js_lt 150 age) eqn:Hrange.
  { left. exists 400, "Age must be between 1 and 150", (issued s).
    split; [discriminate|]. apply serve_post_out_of_range; assumption. }
  apply orb_false_iff in Hrange. destruct Hrange as [Hlo Hhi].
  assert (Hage : age_in_range age).
  { unfold js_lt in Hlo, Hhi. apply negb_false_iff in Hlo, Hhi.
    split; apply Qle_bool_iff; assumption. }
  destruct (existsb (username_matches username) (users (db s))
              || existsb (email_matches email) (users (db s))) eqn:Htaken.
  { left. exists 409, "Username or email already exists",
      (INSERT_INTO_users username email age :: issued s).
    split; [discriminate|]. apply serve_post_conflict; assumption. }
  apply orb_false_iff in Htaken. destruct Htaken as [Hfu Hfe].
  right. exists username, email, age. eexists. cbn zeta.
  apply serve_post_created; try assumption.
  - apply existsb_false_username_free. exact Hfu.
  - apply existsb_false_email_free. exact Hfe.
Qed.

Lemma max_rowid_le rows m :
  0 <= m -> (forall row, In row rows -> col0 row <= m) -> max_rowid rows <= m.
Proof.
  intros Hm. induction rows as [|row rows IH]; simpl; intros Hall; [exact Hm|].
  pose proof (Hall row (or_introl eq_refl)).
  assert (max_rowid rows <= m) by (apply IH; intros r Hr; apply Hall; now right).
  lia.
Qed.

Lemma next_rowid_covered d :
  sequence_covers d -> next_rowid d = sqlite_sequence d + 1.
Proof.
  intros [Hpos Hcov]. unfold next_rowid.
  pose proof (max_rowid_le (users d) (sqlite_sequence d) Hpos Hcov). lia.
Qed.

Lemma created_user_failure code message : created_user (failure code message) = None.
Proof. unfold created_user, failure. cbn. destruct (code =? 201); reflexivity. Qed.

(** One request: what it does to the table and to the counter. *)
Lemma serve_step now r s :
  sequence_covers (db s) ->
  let (response, s1) := serve now r s in
  sequence_covers (db s1)
  /\ (forall row, In row (users (db s1)) ->
        In row (users (db s)) \/ created_user response = Some (user_of_row row))
  /\ match created_user response with
     | Some u => User.id u = sqlite_sequence (db s) + 1
                 /\ sqlite_sequence (db s1) = sqlite_sequence (db s) + 1
     | None => sqlite_sequence (db s1) = sqlite_sequence (db s)
     end.
Proof.
  intros Hcov. destruct r as [|id|username|b|id|].
  - rewrite serve_get_all. cbn. auto.
  - rewrite serve_get_id.
    destruct (filter (id_matches (parseInt id)) (users (db s))); cbn; auto.
  - rewrite serve_get_username.
    destruct (filter (username_matches username) (users (db s))); cbn; auto.
  - destruct (serve_post_cases now s b)
      as [[code [message [iss [Hcode ->]]]]|[username [email [age [iss Hpost]]]]].
    + rewrite created_user_failure. cbn [db]. auto.
    + cbn zeta in Hpost. rewrite Hpost.
      pose proof (next_rowid_covered (db s) Hcov) as Hnext.
      destruct Hcov as [Hpos Hcov].
      unfold sequence_covers.
      cbn [created_user created status body Json.user db after_insert users
             sqlite_sequence Z.eqb Pos.eqb].
      split; [|split].
      * split; [lia|]. intros row Hin. apply in_app_or in Hin.
        destruct Hin as [Hin|[<-|[]]]; [specialize (Hcov row Hin); lia|].
        cbn. lia.
      * intros row Hin. apply in_app_or in Hin.
        destruct Hin as [Hin|[<-|[]]]; [now left|now right].
      * cbn. split; exact Hnext.
  - rewrite serve_delete_id. cbn. destruct Hcov as [Hpos Hcov].
    repeat split; auto.
    + intros row Hin. apply filter_In in Hin. apply Hcov. tauto.
    + intros row Hin. apply filter_In in Hin. tauto.
  - rewrite serve_delete_all. cbn. destruct Hcov as [Hpos Hcov].
    repeat split; auto; intros row [].
Qed.

Lemma count_up_bounds from n id : In id (count_up from n) -> from <= id.
Proof.
  revert from. induction n as [|n IH]; intros from; simpl; [tauto|].
  intros [<-|Hin]; [lia|]. specialize (IH _ Hin). lia.
Qed.

Lemma count_up_sorted from n : StronglySorted Z.lt (count_up from n).
Proof.
  revert from. induction n as [|n IH]; intros from; simpl; constructor; [apply IH|].
  apply Forall_forall. intros id Hin. apply count_up_bounds in Hin. lia.
Qed.

Lemma StronglySorted_lt_NoDup l : StronglySorted Z.lt l -> NoDup l.
Proof.
  induction 1 as [|a l Hsorted IH Hall]; constructor; [|exact IH].
  intros Hin. rewrite Forall_forall in Hall. specialize (Hall a Hin). lia.
Qed.

(** Over a run the created ids are the counter's successive values, the
    counter ends that many steps further, and the table holds nothing but
    rows it held at the start or rows created on the way. *)
Lemma run_counts requests : forall s,
  sequence_covers (db s) ->
  let (responses, s1) := run requests s in
  sequence_covers (db s1)
  /\ created_ids responses
     = count_up (sqlite_sequence (db s) + 1) (length (created_ids responses))
  /\ sqlite_sequence (db s1)
     = sqlite_sequence (db s) + Z.of_nat (length (created_ids responses))
  /\ (forall row, In row (users (db s1)) ->
        In row (users (db s)) \/ In (user_of_row row) (created_users responses)).
Proof.
  induction requests as [|[now r] rest IH]; intros s Hcov.
  - cbn. split; [exact Hcov|]. split; [reflexivity|]. split; [lia|].
    intros row Hin. now left.
  - cbn [run]. pose proof (serve_step now r s Hcov) as Hstep.
    destruct (serve now r s) as [response s1].
    destruct Hstep as [Hcov1 [Hrows1 Hid]].
    specialize (IH s1 Hcov1). destruct (run rest s1) as [responses s2].
    destruct IH as [Hcov2 [Hids [Hseq Hrows2]]].
    unfold created_ids in *. cbn [created_users].
    destruct (created_user response) as [u|] eqn:Hcreated.
    + destruct Hid as [Hu Hs1]. cbn [map length count_up].
      split; [exact Hcov2|]. split; [|split].
      * rewrite Hu. f_equal. rewrite Hs1 in Hids. exact Hids.
      * rewrite Hseq, Hs1. lia.
      * intros row Hin. destruct (Hrows2 row Hin) as [Hold|Hnew].
        -- destruct (Hrows1 row Hold) as [Hold0|Hnow]; [now left|].
           right. left. congruence.
        -- right. right. exact Hnew.
    + split; [exact Hcov2|]. rewrite Hid in Hids, Hseq. split; [exact Hids|].
      split; [exact Hseq|].
      intros row Hin. destruct (Hrows2 row Hin) as [Hold|Hnew]; [|now right].
      destruct (Hrows1 row Hold) as [Hold0|Hnow]; [now left|discriminate].
Qed.

(** C8 : Id assignment.  From a state in which the counter covers the live
    rowids (as in a fresh store), over every sequence of requests: the ids of
    the created records are the successive values of the counter, so each is
    larger than the one before and none is given twice, also not after a
    delete; none is the id of a record that was there at the start; and every
    record in the table at the end is, field for field, a record of the start
    or a record as its create returned it, so no id was changed. *)
Theorem ids_increase_and_are_never_reused (requests : list (Z * Request)) (s : Server) :
  sequence_covers (db s) ->
  let (responses, s1) := run requests s in
  created_ids responses
  = count_up (sqlite_sequence (db s) + 1) (length (created_ids responses))
  /\ sqlite_sequence (db s1)
     = sqlite_sequence (db s) + Z.of_nat (length (created_ids responses))
  /\ StronglySorted Z.lt (created_ids responses)
  /\ NoDup (created_ids responses)
  /\ (forall row, In row (users (db s)) -> ~ In (col0 row) (created_ids responses))
  /\ (forall row, In row (users (db s1)) ->
        In row (users (db s)) \/ In (user_of_row row) (created_users responses)).
Proof.
  intros Hcov. pose proof (run_counts requests s Hcov) as Hrun.
  destruct (run requests s) as [responses s1].
  destruct Hrun as [_ [Hids [Hseq Hrows]]].
  assert (Hsorted : StronglySorted Z.lt (created_ids responses)).
  { rewrite Hids. apply count_up_sorted. }
  repeat (split; [assumption|]).
  split; [apply StronglySorted_lt_NoDup; exact Hsorted|].
  split; [|exact Hrows].
  intros row Hin Hreused. rewrite Hids in Hreused.
  apply count_up_bounds in Hreused. destruct Hcov as [_ Hcov].
  specialize (Hcov row Hin). lia.
Qed.

Lemma ids_increase_and_are_never_reused_witness :
  let alice := Body.mk (Some "alice") (Some "alice@example.com") (Some 25%Q) in
  let bob := Body.mk (Some "bob") (Some "bob@example.com") (Some 30%Q) in
  let requests :=
    [(100, POST_api_users alice); (101, DELETE_api_users_id "1");
     (102, POST_api_users bob); (103, DELETE_api_users);
     (104, POST_api_users alice)] in
  let s := initial_server 0 in
  let (responses, s1) := run requests s in
  created_ids responses
  = count_up (sqlite_sequence (db s) + 1) (length (created_ids responses))
  /\ sqlite_sequence (db s1)
     = sqlite_sequence (db s) + Z.of_nat (length (created_ids responses))
  /\ StronglySorted Z.lt (created_ids responses)
  /\ NoDup (created_ids responses)
  /\ (forall row, In row (users (db s)) -> ~ In (col0 row) (created_ids responses))
  /\ (forall row, In row (users (db s1)) ->
        In row (users (db s)) \/ In (user_of_row row) (created_users responses)).
Proof.
  intros alice bob requests s.
  apply (ids_increase_and_are_never_reused requests s).
  split; [discriminate|]. intros row [].
Defined.

Example created_ids_of_a_run :
  let alice := Body.mk (Some "alice") (Some "alice@example.com") (Some 25%Q) in
  let bob := Body.mk (Some "bob") (Some "bob@example.com") (Some 30%Q) in
  created_ids
    (fst (run [(100, POST_api_users alice); (101, DELETE_api_users_id "1");
               (102, POST_api_users bob); (103, DELETE_api_users);
               (104, POST_api_users alice)]
              (initial_server 0)))
  = [1; 2; 3].
Proof. reflexivity. Qed.

(* ===================================================================== *)
(** ** Ages that are not whole numbers *)
(* ===================================================================== *)

Lemma bind_number_not_whole q :
  Qden (Qred q) <> 1%positive -> bind_number q = REAL q.
Proof.
  intros Hden. unfold bind_number.
  destruct (Pos.eqb_spec (Qden (Qred q)) 1); [contradiction|reflexivity].
Qed.

(** C10 : No integer check on age.  For every username and email that are
    present and free and every number [age] with 1 <= age <= 150, whole or
    not, the create is answered 201, the row is persisted in the database and
    its file with that number in the [age] column, and the user returned by
    the create and by a later get-by-id has that number as its age; an age
    that is not a whole number is kept exactly as submitted. *)
Theorem age_is_not_required_to_be_an_integer
  (now later : Z) (s : Server) (username email : string) (age : Q) :
  username <> "" -> email <> "" -> age_in_range age ->
  username_free username (db s) -> email_free email (db s) ->
  exists (u : User.t) (s1 : Server),
    serve now (POST_api_users (Body.mk (Some username) (Some email) (Some age))) s
    = (created u, s1)
    /\ status (created u) = 201
    /\ (User.age u == age)%Q
    /\ (Qden (Qred age) <> 1%positive -> User.age u = age)
    /\ In (User.id u, username, email, bind_number age, now) (users (db s1))
    /\ dbPath s1 = db s1
    /\ fst (serve later (GET_api_users_id (js_string_of_int (User.id u))) s1)
       = found u.
Proof.
  intros Hu He Hage Hfu Hfe.
  eexists. eexists. split; [apply serve_post_created; assumption|].
  split; [reflexivity|].
  split; [apply get_number_bind_number|].
  split.
  { intros Hden. cbn. rewrite (bind_number_not_whole age Hden). reflexivity. }
  split.
  { cbn [db after_insert users]. apply in_or_app. right. left. reflexivity. }
  split; [reflexivity|].
  apply get_by_id_after_insert. cbn. apply parseInt_js_string_of_int.
Qed.

Lemma age_is_not_required_to_be_an_integer_witness :
  exists (u : User.t) (s1 : Server),
    serve 100 (POST_api_users
                 (Body.mk (Some "alice") (Some "alice@example.com") (Some (51 # 2)%Q)))
          (initial_server 0)
    = (created u, s1)
    /\ status (created u) = 201
    /\ (User.age u == 51 # 2)%Q
    /\ (Qden (Qred (51 # 2)) <> 1%positive -> User.age u = (51 # 2)%Q)
    /\ In (User.id u, "alice", "alice@example.com", bind_number (51 # 2), 100)
          (users (db s1))
    /\ dbPath s1 = db s1
    /\ fst (serve 101 (GET_api_users_id (js_string_of_int (User.id u))) s1)
       = found u.
Proof.
  apply (age_is_not_required_to_be_an_integer 100 101 (initial_server 0)
           "alice" "alice@example.com" (51 # 2)%Q).
  - discriminate.
  - discriminate.
  - split; discriminate.
  - intros row [].
  - intros row [].
Defined.

Example age_25_5_is_stored_as_real :
  serve 100 (POST_api_users
               (Body.mk (Some "alice") (Some "alice@example.com") (Some (51 # 2)%Q)))
        (initial_server 0)
  = (created (User.mk 1 "alice" "alice@example.com" (51 # 2) 100),
     let d := mkDatabase [(1, "alice", "alice@example.com", REAL (51 # 2), 100)] 1 in
     mkServer d d
       [SELECT_users_WHERE_username "alice";
        INSERT_INTO_users "alice" "alice@example.com" (51 # 2)]
       100).
Proof. reflexivity. Qed.

(* ===================================================================== *)
(** ** The form controller *)
(* ===================================================================== *)

(** The page after a submit does not depend on the [created_at] of the
    response. *)
Lemma on_submit_ignores_created_at d message id username email age t1 t2 users :
  on_submit
    (fun _ => Normal (Json.mk true message
                        (Some (User.mk id username email age t1)) users)) d
  = on_submit
      (fun _ => Normal (Json.mk true message
                          (Some (User.mk id username email age t2)) users)) d.
Proof. reflexivity. Qed.

(** C9, as stated, fails: after a successful create the page shows the id,
    the username, the email and the age of the response, but no text on the
    page is the response's timestamp, and a response with another timestamp
    gives the very same page. *)
Lemma created_at_is_not_rendered :
  let d := filled_form "alice" "alice@example.com" "25" in
  let response t :=
    Json.mk true (Some "User registered successfully")
      (Some (User.mk 1 "alice" "alice@example.com" 25 t)) None in
  let page t := on_submit (fun _ => Normal (response t)) d in
  ~ In (JsNumber (inject_Z 1700000000)) (shown (page 1700000000))
  /\ page 1700000000 = page 1800000000.
Proof.
  cbn zeta. split; [|reflexivity].
  cbn. intros [H|[H|[H|[H|[H|[H|[]]]]]]]; discriminate H.
Qed.

(** C9, amended : What the form controller renders.  Whatever the form held,
    when the create response has [success] true the page shows the response's
    id, username, email and age, each taken from the response's user, with
    the form hidden and the user panel visible; when [success] is false the
    page shows the response's message as it came, as an error.  (A response
    with [success] true and no user makes the handler throw, and the page
    shows the fixed failure text.)  In all cases the submit button is enabled
    again. *)
Theorem form_controller_renders_the_response
  (fetch : Body.t -> Completion Json.t) (d : Dom) (data : Json.t) :
  fetch (formData d) = Normal data ->
  let page := on_submit fetch d in
  submitBtn_disabled page = false
  /\ match Json.success data, Json.user data with
     | true, Some user =>
         userId page = JsNumber (inject_Z (User.id user))
         /\ displayUsername page = JsString (User.username user)
         /\ displayEmail page = JsString (User.email user)
         /\ displayAge page = JsNumber (User.age user)
         /\ userInfo_hidden page = false
         /\ form_hidden page = true
     | true, None =>
         message_textContent page
         = JsString "Failed to register user. Please ensure the server is running."
     | false, _ =>
         message_textContent page = js_value_of_message (Json.message data)
         /\ message_className page = "message error"
         /\ message_hidden page = false
     end.
Proof.
  intros Hfetch page. unfold page, on_submit. rewrite Hfetch.
  destruct (Json.success data); [destruct (Json.user data)|]; cbn; repeat split.
Qed.

Lemma form_controller_renders_the_response_witness :
  let d := filled_form " alice " "alice@example.com" "25" in
  let fetch (b : Body.t) : Completion Json.t :=
    Normal (body (fst (serve 100 (POST_api_users b) (initial_server 0)))) in
  let page := on_submit fetch d in
  submitBtn_disabled page = false
  /\ userId page = JsNumber 1
  /\ displayUsername page = JsString "alice"
  /\ displayEmail page = JsString "alice@example.com"
  /\ displayAge page = JsNumber 25
  /\ userInfo_hidden page = false
  /\ form_hidden page = true.
Proof.
  intros d fetch page.
  exact (form_controller_renders_the_response fetch d
           (body (fst (serve 100 (POST_api_users (formData d)) (initial_server 0))))
           eq_refl).
Defined.

Example form_controller_shows_the_conflict_message :
  let s := snd (serve 100 (POST_api_users
                             (Body.mk (Some "alice") (Some "a@example.com") (Some 25%Q)))
                      (initial_server 0)) in
  let fetch (b : Body.t) : Completion Json.t :=
    Normal (body (fst (serve 101 (POST_api_users b) s))) in
  message_textContent (on_submit fetch (filled_form "alice" "b@example.com" "30"))
  = JsString "Username or email already exists".
Proof. reflexivity. Qed.


(* ===================================================================== *)
(** ** Every outcome of a create *)
(* ===================================================================== *)

(** The four ways [POST /api/users] can go, with what is known in each. *)
Lemma serve_post_classify now s b :
  let untouched := mkServer (db s) (dbPath s) (issued s) now in
  serve now (POST_api_users b) s
  = (failure 400 "All fields are required", untouched)
  \/ serve now (POST_api_users b) s
     = (failure 400 "Age must be between 1 and 150", untouched)
  \/ (exists username email age,
         b = Body.mk (Some username) (Some email) (Some age)
         /\ username <> "" /\ email <> "" /\ age_in_range age
         /\ existsb (username_matches username) (users (db s))
              || existsb (email_matches email) (users (db s)) = true
         /\ serve now (POST_api_users b) s
            = (failure 409 "Username or email already exists",
               mkServer (db s) (dbPath s)
                        (INSERT_INTO_users username email age :: issued s) now))
  \/ (exists username email age,
         b = Body.mk (Some username) (Some email) (Some age)
         /\ username <> "" /\ email <> "" /\ age_in_range age
         /\ username_free username (db s) /\ email_free email (db s)
         /\ serve now (POST_api_users b) s
            = (created (user_of_row (created_row now username email age (db s))),
               mkServer (after_insert now username email age (db s))
                        (after_insert now username email age (db s))
                        (SELECT_users_WHERE_username username
                           :: INSERT_INTO_users username email age :: issued s)
                        now)).
Proof.
  cbn zeta.
  destruct (js_not_string (Body.username b)
              || js_not_string (Body.email b)
              || js_not_number (Body.age b)) eqn:Hfalsy.
  { left. apply serve_post_missing. exact Hfalsy. }
  apply orb_false_iff in Hfalsy. destruct Hfalsy as [Hfalsy Hzero].
  apply orb_false_iff in Hfalsy. destruct Hfalsy as [Hu He].
  destruct b as [[username|] [email|] [age|]]; cbn in Hu, He, Hzero; try discriminate.
  apply String.eqb_neq in Hu. apply String.eqb_neq in He.
  destruct (js_lt age 1 || js_lt 150 age) eqn:Hrange.
  { right. left. apply serve_post_out_of_range; assumption. }
  apply orb_false_iff in Hrange. destruct Hrange as [Hlo Hhi].
  assert (Hage : age_in_range age).
  { unfold js_lt in Hlo, Hhi. apply negb_false_iff in Hlo, Hhi.
    split; apply Qle_bool_iff; assumption. }
  destruct (existsb (username_matches username) (users (db s))
              || existsb (email_matches email) (users (db s))) eqn:Htaken.
  { right. right. left. exists username, email, age.
    repeat (split; [first [reflexivity|assumption]|]).
    apply serve_post_conflict; assumption. }
  apply orb_false_iff in Htaken. destruct Htaken as [Hfu Hfe].
  apply existsb_false_username_free in Hfu. apply existsb_false_email_free in Hfe.
  right. right. right. exists username, email, age.
  repeat (split; [first [reflexivity|assumption]|]).
  apply serve_post_created; assumption.
Qed.

(** X1 : Status codes.  With a driver that raises nothing but UNIQUE
    violations, the list and the two deletes are always answered 200, the
    two lookups 200 or 404, a create 201, 400 or 409; no route answers 500,
    so the re-read after a successful INSERT always finds the row.  The
    [success] flag is true exactly on 200 and 201, and an answer with
    [success] false always carries a message. *)
Theorem status_codes_by_route (now : Z) (r : Request) (s : Server) :
  let response := fst (serve now r s) in
  match r with
  | GET_api_users | DELETE_api_users_id _ | DELETE_api_users =>
      status response = 200
  | GET_api_users_id _ | GET_api_users_username _ =>
      status response = 200 \/ status response = 404
  | POST_api_users _ =>
      status response = 201 \/ status response = 400 \/ status response = 409
  end
  /\ (Json.success (body response) = true
      <-> status response = 200 \/ status response = 201)
  /\ (Json.success (body response) = false
      -> Json.message (body response) <> None).
Proof.
  cbn zeta. destruct r as [|id|username|b|id|].
  - rewrite serve_get_all. cbn. intuition discriminate.
  - rewrite serve_get_id.
    destruct (filter (id_matches (parseInt id)) (users (db s))); cbn;
      intuition discriminate.
  - rewrite serve_get_username.
    destruct (filter (username_matches username) (users (db s))); cbn;
      intuition discriminate.
  - destruct (serve_post_classify now s b)
      as [H|[H|[(u & e & a & _ & _ & _ & _ & _ & H)|(u & e & a & _ & _ & _ & _ & _ & _ & H)]]];
      rewrite H; cbn; intuition discriminate.
  - rewrite serve_delete_id. cbn. intuition discriminate.
  - rewrite serve_delete_all. cbn. intuition discriminate.
Qed.

(** X2 : A duplicate email is refused like a duplicate username.  When a live
    record holds the email, a create with that email, any present username
    (taken or not) and any age in [1, 150] is answered 409 "Username or email
    already exists"; database and file are what they were and the original
    record is still there. *)
Theorem duplicate_email_conflict_is_atomic
  (now : Z) (s : Server) (original : Row) (username : string) (age : Q) :
  In original (users (db s)) ->
  col2 original <> "" -> username <> "" -> age_in_range age ->
  exists s1 : Server,
    serve now (POST_api_users
                 (Body.mk (Some username) (Some (col2 original)) (Some age))) s
    = (failure 409 "Username or email already exists", s1)
    /\ store s1 = store s
    /\ In original (users (db s1)).
Proof.
  intros Hin He Hu Hage. eexists. split.
  - apply serve_post_conflict; try assumption.
    apply orb_true_iff. right. apply existsb_exists. exists original.
    split; [exact Hin|]. apply String.eqb_eq. reflexivity.
  - split; [reflexivity|exact Hin].
Qed.

Lemma duplicate_email_conflict_is_atomic_witness :
  let s := mkServer (mkDatabase [(1, "alice", "alice@example.com", INTEGER 25, 100)] 1)
                    (mkDatabase [(1, "alice", "alice@example.com", INTEGER 25, 100)] 1)
                    [] 100 in
  exists s1 : Server,
    serve 101 (POST_api_users
                 (Body.mk (Some "bob") (Some "alice@example.com") (Some 30%Q))) s
    = (failure 409 "Username or email already exists", s1)
    /\ store s1 = store s
    /\ In (1, "alice", "alice@example.com", INTEGER 25, 100) (users (db s1)).
Proof.
  intros s.
  apply (duplicate_email_conflict_is_atomic 101 s
           (1, "alice", "alice@example.com", INTEGER 25, 100) "bob" 30%Q).
  - left. reflexivity.
  - discriminate.
  - discriminate.
  - split; discriminate.
Defined.

(* ===================================================================== *)
(** ** What a request can do to the table *)
(* ===================================================================== *)

(** A request leaves the database as it is, appends one valid row whose
    username and email were free, or removes rows; the counter moves only
    with an insert. *)
Lemma serve_table now r s :
  let s1 := snd (serve now r s) in
  db s1 = db s
  \/ (exists username email age,
         username <> "" /\ email <> "" /\ age_in_range age
         /\ username_free username (db s) /\ email_free email (db s)
         /\ db s1 = after_insert now username email age (db s))
  \/ (exists keep,
         db s1 = mkDatabase (filter keep (users (db s))) (sqlite_sequence (db s))).
Proof.
  cbn zeta. destruct r as [|id|username|b|id|].
  - rewrite serve_get_all. now left.
  - rewrite serve_get_id. now left.
  - rewrite serve_get_username. now left.
  - destruct (serve_post_classify now s b)
      as [H|[H|[(u & e & a & _ & _ & _ & _ & _ & H)
               |(u & e & a & _ & Hu & He & Ha & Hfu & Hfe & H)]]];
      rewrite H; [now left|now left|now left|].
    right. left. exists u, e, a. repeat (split; [assumption|]). reflexivity.
  - rewrite serve_delete_id. right. right. eexists. reflexivity.
  - rewrite serve_delete_all. right. right. exists (fun _ => false). cbn.
    f_equal. symmetry. apply filter_none. reflexivity.
Qed.

(** A property of the server that every request keeps is kept by a run. *)
Lemma run_keeps (P : Server -> Prop) :
  (forall now r s, P s -> P (snd (serve now r s))) ->
  forall requests s, P s -> P (snd (run requests s)).
Proof.
  intros Hstep. induction requests as [|[now r] rest IH]; intros s HP; [exact HP|].
  cbn [run]. specialize (Hstep now r s HP).
  destruct (serve now r s) as [response s1]. cbn [snd] in Hstep.
  specialize (IH s1 Hstep). destruct (run rest s1) as [responses s2]. exact IH.
Qed.

Lemma NoDup_snoc {A} (l : list A) (x : A) :
  NoDup l -> ~ In x l -> NoDup (l ++ [x]).
Proof.
  intros Hl Hx. apply (Permutation_NoDup (l := x :: l)).
  - apply Permutation_cons_append.
  - constructor; assumption.
Qed.

Lemma NoDup_map_filter {A B} (f : A -> B) (keep : A -> bool) (l : list A) :
  NoDup (map f l) -> NoDup (map f (filter keep l)).
Proof.
  induction l as [|a l IH]; cbn; [trivial|].
  intros Hnd. inversion Hnd as [|? ? Hnotin Hrest]; subst.
  destruct (keep a); [|now apply IH].
  cbn. constructor; [|now apply IH].
  intros Hin. apply Hnotin. apply in_map_iff in Hin.
  destruct Hin as [x [Hfx Hx]]. apply filter_In in Hx.
  apply in_map_iff. exists x. tauto.
Qed.

Lemma serve_keeps_constraints now r s :
  constraints_hold (db s) -> constraints_hold (db (snd (serve now r s))).
Proof.
  intros (Hid & Hun & Hem).
  destruct (serve_table now r s)
    as [->|[(u & e & a & _ & _ & _ & Hfu & Hfe & ->)|(keep & ->)]].
  - repeat split; assumption.
  - unfold constraints_hold, after_insert. cbn [users].
    rewrite !map_app. cbn [map created_row col0 col1 col2].
    repeat split; apply NoDup_snoc; try assumption.
    + intros Hin. apply in_map_iff in Hin. destruct Hin as [row [Heq Hin]].
      pose proof (next_rowid_fresh (db s) row Hin). lia.
    + intros Hin. apply in_map_iff in Hin. destruct Hin as [row [Heq Hin]].
      exact (Hfu row Hin Heq).
    + intros Hin. apply in_map_iff in Hin. destruct Hin as [row [Heq Hin]].
      exact (Hfe row Hin Heq).
  - unfold constraints_hold. cbn [users].
    repeat split; apply NoDup_map_filter; assumption.
Qed.

(** X3 : Uniqueness is an invariant.  From a state in which no two live
    records share an id, a username or an email (an empty store is one), no
    sequence of requests leads to a state in which two do. *)
Theorem uniqueness_is_kept_by_every_run (requests : list (Z * Request)) (s : Server) :
  constraints_hold (db s) ->
  constraints_hold (db (snd (run requests s))).
Proof.
  apply (run_keeps (fun s => constraints_hold (db s))).
  intros now r s0. apply serve_keeps_constraints.
Qed.

Lemma uniqueness_is_kept_by_every_run_witness :
  let alice := Body.mk (Some "alice") (Some "alice@example.com") (Some 25%Q) in
  let alice2 := Body.mk (Some "alice") (Some "other@example.com") (Some 26%Q) in
  let bob := Body.mk (Some "bob") (Some "alice@example.com") (Some 30%Q) in
  constraints_hold
    (db (snd (run [(100, POST_api_users alice); (101, POST_api_users alice2);
                   (102, POST_api_users bob); (103, DELETE_api_users_id "1");
                   (104, POST_api_users bob)]
                  (initial_server 0)))).
Proof.
  intros alice alice2 bob.
  apply (uniqueness_is_kept_by_every_run _ (initial_server 0)).
  repeat split; constructor.
Defined.

Lemma age_in_range_get_bind age :
  age_in_range age -> age_in_range (get_number (bind_number age)).
Proof.
  unfold age_in_range. rewrite get_number_bind_number. trivial.
Qed.

Lemma serve_keeps_validity now r s :
  Forall row_valid (users (db s)) ->
  Forall row_valid (users (db (snd (serve now r s)))).
Proof.
  intros Hall.
  destruct (serve_table now r s)
    as [->|[(u & e & a & Hu & He & Ha & _ & _ & ->)|(keep & ->)]].
  - exact Hall.
  - cbn [after_insert users]. apply Forall_app. split; [exact Hall|].
    constructor; [|constructor].
    unfold row_valid, created_row. cbn [col1 col2 col3].
    repeat split; try assumption; apply age_in_range_get_bind; exact Ha.
  - cbn [users]. apply Forall_forall. intros row Hin.
    apply filter_In in Hin. rewrite Forall_forall in Hall. apply Hall. tauto.
Qed.

(** X4 : The page stores only valid records.  From a state in which every
    live record has a non-empty username and email and an age within
    [1, 150], every sequence of requests whose creates carry bodies built by
    the page's submit handler (strings for username and email, a number or
    null for the age), mixed with any reads and deletes, leads to such a
    state. *)
Theorem only_valid_records_are_stored (requests : list (Z * Request)) (s : Server) :
  Forall from_page requests ->
  Forall row_valid (users (db s)) ->
  Forall row_valid (users (db (snd (run requests s)))).
Proof.
  intros _. apply (run_keeps (fun s => Forall row_valid (users (db s)))).
  intros now r s0. apply serve_keeps_validity.
Qed.

Lemma only_valid_records_are_stored_witness :
  let ok := formData (filled_form " alice " "alice@example.com" "25") in
  let no_email := formData (filled_form "bob" "  " "30") in
  let too_old := formData (filled_form "carol" "carol@example.com" "151") in
  let zero := formData (filled_form "dave" "dave@example.com" "0") in
  let no_age := formData (filled_form "erin" "erin@example.com" "abc") in
  let requests :=
    [(100, POST_api_users ok); (101, POST_api_users no_email);
     (102, POST_api_users too_old); (103, POST_api_users zero);
     (104, POST_api_users no_age)] in
  Forall from_page requests
  /\ Forall row_valid (users (db (snd (run requests (initial_server 0))))).
Proof.
  intros ok no_email too_old zero no_age requests.
  assert (Hpage : Forall from_page requests).
  { repeat constructor; eexists; reflexivity. }
  split; [exact Hpage|].
  apply (only_valid_records_are_stored requests (initial_server 0) Hpage).
  constructor.
Defined.

(* ===================================================================== *)
(** ** The file and restarts *)
(* ===================================================================== *)

Lemma serve_keeps_sync now r s :
  dbPath s = db s -> dbPath (snd (serve now r s)) = db (snd (serve now r s)).
Proof.
  intros Hsync. destruct r as [|id|username|b|id|].
  - rewrite serve_get_all. exact Hsync.
  - rewrite serve_get_id. exact Hsync.
  - rewrite serve_get_username. exact Hsync.
  - destruct (serve_post_classify now s b)
      as [H|[H|[(u & e & a & _ & _ & _ & _ & _ & H)
               |(u & e & a & _ & _ & _ & _ & _ & _ & H)]]];
      rewrite H; first [exact Hsync|reflexivity].
  - reflexivity.
  - reflexivity.
Qed.

Ltac js_step := cbv beta zeta; cbn [db dbPath issued clock fst snd].

(** The answer to a request and the database it leaves depend on the open
    database only, not on the file, the log or the old clock reading. *)
Lemma serve_depends_on_db now r s s' :
  db s = db s' ->
  fst (serve now r s) = fst (serve now r s')
  /\ db (snd (serve now r s)) = db (snd (serve now r s')).
Proof.
  intros Hdb. destruct r as [|id|username|b|id|].
  - rewrite !serve_get_all, Hdb. split; reflexivity.
  - rewrite !serve_get_id, Hdb. split; reflexivity.
  - rewrite !serve_get_username, Hdb. split; reflexivity.
  - destruct s as [d f i c], s' as [d' f' i' c']. cbn [db] in Hdb. subst d'.
    unfold serve, route, post_api_users, try_catch, bind, db_run, db_exec,
      saveDatabase, note, ret, throw.
    js_step.
    destruct (js_not_string (Body.username b)
                || js_not_string (Body.email b)
                || js_not_number (Body.age b)); [split; reflexivity|].
    destruct (Body.username b) as [username|]; [|split; reflexivity].
    destruct (Body.email b) as [email|]; [|split; reflexivity].
    destruct (Body.age b) as [age|]; [|split; reflexivity].
    destruct (js_lt age 1 || js_lt 150 age); [split; reflexivity|].
    js_step.
    destruct (execute now (INSERT_INTO_users username email age) d) as [message|d1];
      js_step.
    + destruct (includes message "UNIQUE constraint failed"); split; reflexivity.
    + destruct (execute now (SELECT_users_WHERE_username username) d1)
        as [message|d2] eqn:Hsel; [discriminate Hsel|].
      injection Hsel as <-. js_step. cbn [select].
      destruct (filter (username_matches username) (users d1)) as [|row rows];
        split; reflexivity.
  - rewrite !serve_delete_id, Hdb. split; reflexivity.
  - rewrite !serve_delete_all, Hdb. split; reflexivity.
Qed.

Lemma run_depends_on_db requests : forall s s',
  db s = db s' ->
  fst (run requests s) = fst (run requests s')
  /\ db (snd (run requests s)) = db (snd (run requests s')).
Proof.
  induction requests as [|[now r] rest IH]; intros s s' Hdb; [split; [reflexivity|exact Hdb]|].
  cbn [run]. destruct (serve_depends_on_db now r s s' Hdb) as [Hresp Hdb1].
  destruct (serve now r s) as [response s1], (serve now r s') as [response' s1'].
  cbn [fst snd] in Hresp, Hdb1. subst response'.
  destruct (IH s1 s1' Hdb1) as [Hresps Hdb2].
  destruct (run rest s1) as [responses s2], (run rest s1') as [responses' s2'].
  cbn [fst snd] in *. subst responses'. split; [reflexivity|exact Hdb2].
Qed.

Lemma run_keeps_sync requests s :
  dbPath s = db s -> dbPath (snd (run requests s)) = db (snd (run requests s)).
Proof.
  apply (run_keeps (fun s => dbPath s = db s)).
  intros t r s0. apply serve_keeps_sync.
Qed.

(** X5 : The file follows the database.  A server started by [initDatabase],
    from a file or from none, has after every sequence of requests a file
    that holds exactly the open database: every route that changes the
    database saves it, and a refused create changes nothing. *)
Theorem file_always_holds_the_database
  (file : option Database) (now : Z) (requests : list (Z * Request)) :
  let s1 := snd (run requests (initDatabase file now)) in
  dbPath s1 = db s1.
Proof. apply run_keeps_sync. reflexivity. Qed.

(** X6 : A restart is not noticed.  After any sequence of requests, a server
    started again from the file answers every further sequence of requests
    exactly as the server that kept running would have, and ends with the
    same database.  The same holds from any state whatever when the process
    is ended by SIGINT, whose handler saves first. *)
Theorem restart_is_transparent
  (file : option Database) (now later : Z) (requests more : list (Z * Request))
  (s : Server) :
  let s1 := snd (run requests (initDatabase file now)) in
  (fst (run more (initDatabase (Some (dbPath s1)) later)) = fst (run more s1)
   /\ db (snd (run more (initDatabase (Some (dbPath s1)) later)))
      = db (snd (run more s1)))
  /\ (fst (run more (initDatabase (Some (on_SIGINT s)) later)) = fst (run more s)
      /\ db (snd (run more (initDatabase (Some (on_SIGINT s)) later)))
         = db (snd (run more s))).
Proof.
  cbn zeta. split; apply run_depends_on_db; cbn [initDatabase db].
  - apply run_keeps_sync. reflexivity.
  - reflexivity.
Qed.

(* ===================================================================== *)
(** ** Reading, deleting and creating, one after the other *)
(* ===================================================================== *)

(** X7 : Only an accepted create or a delete writes.  A request that is not a
    delete and is not answered 201 (the three reading routes, and every
    refused create) leaves the database and the file as they were. *)
Theorem only_creates_and_deletes_change_the_store (now : Z) (r : Request) (s : Server) :
  is_delete r = false ->
  status (fst (serve now r s)) <> 201 ->
  store (snd (serve now r s)) = store s.
Proof.
  intros Hdel Hstatus. destruct r as [|id|username|b|id|]; try discriminate Hdel.
  - rewrite serve_get_all. reflexivity.
  - rewrite serve_get_id. reflexivity.
  - rewrite serve_get_username. reflexivity.
  - destruct (serve_post_classify now s b)
      as [H|[H|[(u & e & a & _ & _ & _ & _ & _ & H)
               |(u & e & a & _ & _ & _ & _ & _ & _ & H)]]];
      rewrite H in *; try reflexivity.
    exfalso. apply Hstatus. reflexivity.
Qed.

Lemma only_creates_and_deletes_change_the_store_witness :
  let s := snd (serve 100 (POST_api_users
                             (Body.mk (Some "alice") (Some "a@example.com") (Some 25%Q)))
                      (initial_server 0)) in
  let r := POST_api_users (Body.mk (Some "alice") (Some "b@example.com") (Some 30%Q)) in
  store (snd (serve 101 r s)) = store s.
Proof.
  intros s r.
  apply (only_creates_and_deletes_change_the_store 101 r s).
  - reflexivity.
  - discriminate.
Defined.

(** X8 : Deleted means gone.  After DELETE /api/users/:id, a GET with the same
    id parameter is answered 404, whatever the parameter and the state. *)
Theorem deleted_id_is_not_found (now later : Z) (id : string) (s : Server) :
  fst (serve later (GET_api_users_id id)
         (snd (serve now (DELETE_api_users_id id) s)))
  = failure 404 "User not found".
Proof.
  rewrite serve_delete_id. cbn [snd]. rewrite serve_get_id. cbn [fst db users].
  rewrite filter_none; [reflexivity|].
  intros row Hin. apply filter_In in Hin. destruct Hin as [_ Hin].
  apply negb_true_iff in Hin. exact Hin.
Qed.

Lemma filter_filter_implied {A} (f g : A -> bool) (l : list A) :
  (forall x, In x l -> f x = true -> g x = true) ->
  filter f (filter g l) = filter f l.
Proof.
  induction l as [|a l IH]; intros H; cbn; [reflexivity|].
  assert (IH' : filter f (filter g l) = filter f l).
  { apply IH. intros x Hx. apply H. now right. }
  destruct (g a) eqn:Hg; cbn.
  - rewrite IH'. reflexivity.
  - destruct (f a) eqn:Hf; [|exact IH'].
    rewrite (H a (or_introl eq_refl) Hf) in Hg. discriminate.
Qed.

(** X9 : A delete touches one id only.  For two id parameters that JavaScript
    reads exactly (as the integer the digits denote, or as NaN) and reads
    differently: after DELETE /api/users/:id with the one, a GET with the
    other is answered as it was answered before the delete. *)
Theorem delete_leaves_other_ids (now later : Z) (id other : string) (s : Server) :
  reads_exactly id -> reads_exactly other ->
  parseInt other <> parseInt id ->
  fst (serve later (GET_api_users_id other)
         (snd (serve now (DELETE_api_users_id id) s)))
  = fst (serve later (GET_api_users_id other) s).
Proof.
  intros _ _ Hdiff. rewrite serve_delete_id. cbn [snd]. rewrite !serve_get_id.
  cbn [fst db users]. rewrite filter_filter_implied; [reflexivity|].
  intros row _ Hother. apply negb_true_iff.
  destruct (parseInt other) as [m|]; [|discriminate Hother].
  destruct (parseInt id) as [n|]; [|reflexivity].
  cbn in *. apply Z.eqb_eq in Hother. apply Z.eqb_neq. congruence.
Qed.

Lemma delete_leaves_other_ids_witness :
  let s := snd (run [(100, POST_api_users
                             (Body.mk (Some "alice") (Some "a@example.com") (Some 25%Q)));
                     (101, POST_api_users
                             (Body.mk (Some "bob") (Some "b@example.com") (Some 30%Q)))]
                    (initial_server 0)) in
  fst (serve 103 (GET_api_users_id "2")
         (snd (serve 102 (DELETE_api_users_id "1") s)))
  = fst (serve 103 (GET_api_users_id "2") s).
Proof.
  intros s. apply (delete_leaves_other_ids 102 103 "1" "2" s).
  - reflexivity.
  - reflexivity.
  - discriminate.
Defined.

(** X10 : Deleting what is not there.  For an id parameter that JavaScript
    reads exactly (as the integer the digits denote, or as NaN): when no live
    record has the id it reads as (in particular when it does not read as a
    number at all), DELETE /api/users/:id is still answered 200 "User
    deleted successfully", the database is unchanged, and the file is
    written with it. *)
Theorem delete_of_absent_id_changes_nothing (now : Z) (id : string) (s : Server) :
  reads_exactly id ->
  (forall row, In row (users (db s)) -> parseInt id <> Some (col0 row)) ->
  let (response, s1) := serve now (DELETE_api_users_id id) s in
  response = deleted /\ db s1 = db s /\ dbPath s1 = db s.
Proof.
  intros _ Habsent. rewrite serve_delete_id. cbn [db dbPath].
  assert (Hsame : mkDatabase
                    (filter (fun row => negb (id_matches (parseInt id) row)) (users (db s)))
                    (sqlite_sequence (db s)) = db s).
  { rewrite filter_all; [destruct (db s); reflexivity|].
    intros row Hin. apply negb_true_iff. specialize (Habsent row Hin).
    destruct (parseInt id) as [n|]; [|reflexivity].
    cbn. apply Z.eqb_neq. congruence. }
  rewrite Hsame. repeat split.
Qed.

Lemma delete_of_absent_id_changes_nothing_witness :
  let s := snd (serve 100 (POST_api_users
                             (Body.mk (Some "alice") (Some "a@example.com") (Some 25%Q)))
                      (initial_server 0)) in
  let (response, s1) := serve 101 (DELETE_api_users_id "abc") s in
  response = deleted /\ db s1 = db s /\ dbPath s1 = db s.
Proof.
  intros s. apply (delete_of_absent_id_changes_nothing 101 "abc" s).
  - exact I.
  - intros row Hin. discriminate.
Defined.

(** X11 : Delete all.  After DELETE /api/users the list is empty and every
    lookup, by id or by username, is answered 404; the counter is kept, so
    every valid create then succeeds (no name is taken any more) and gets an
    id above the counter, not 1 again. *)
Theorem delete_all_empties_the_table_and_keeps_the_counter
  (now later : Z) (s : Server) (id username email : string) (age : Q) :
  username <> "" -> email <> "" -> age_in_range age ->
  let s1 := snd (serve now DELETE_api_users s) in
  fst (serve later GET_api_users s1) = listed []
  /\ fst (serve later (GET_api_users_id id) s1) = failure 404 "User not found"
  /\ fst (serve later (GET_api_users_username username) s1)
     = failure 404 "User not found"
  /\ exists u,
       fst (serve later (POST_api_users
                           (Body.mk (Some username) (Some email) (Some age))) s1)
       = created u
       /\ sqlite_sequence (db s) < User.id u.
Proof.
  intros Hu He Hage. cbn zeta. rewrite serve_delete_all. cbn [snd].
  rewrite serve_get_all, serve_get_id, serve_get_username. cbn [fst db users].
  repeat (split; [reflexivity|]).
  eexists. rewrite serve_post_created; try assumption.
  - split; [reflexivity|]. cbn. unfold next_rowid. cbn. lia.
  - intros row [].
  - intros row [].
Qed.

Lemma delete_all_empties_the_table_and_keeps_the_counter_witness :
  let s := snd (run [(100, POST_api_users
                             (Body.mk (Some "alice") (Some "a@example.com") (Some 25%Q)));
                     (101, POST_api_users
                             (Body.mk (Some "bob") (Some "b@example.com") (Some 30%Q)))]
                    (initial_server 0)) in
  let s1 := snd (serve 102 DELETE_api_users s) in
  fst (serve 103 GET_api_users s1) = listed []
  /\ fst (serve 103 (GET_api_users_id "1") s1) = failure 404 "User not found"
  /\ fst (serve 103 (GET_api_users_username "alice") s1)
     = failure 404 "User not found"
  /\ exists u,
       fst (serve 103 (POST_api_users
                         (Body.mk (Some "alice") (Some "a@example.com") (Some 25%Q))) s1)
       = created u
       /\ sqlite_sequence (db s) < User.id u.
Proof.
  intros s.
  apply (delete_all_empties_the_table_and_keeps_the_counter
           102 103 s "1" "alice" "a@example.com" 25%Q).
  - discriminate.
  - discriminate.
  - split; discriminate.
Defined.

Lemma filter_out_created_row now username email age d :
  filter (fun row => negb (id_matches (Some (next_rowid d)) row))
         (users d ++ [created_row now username email age d])
  = users d.
Proof.
  rewrite filter_app. cbn [filter created_row id_matches col0].
  rewrite Z.eqb_refl. cbn [negb]. rewrite app_nil_r.
  apply filter_all. intros row Hin. apply negb_true_iff. cbn.
  apply Z.eqb_neq. pose proof (next_rowid_fresh d row Hin). lia.
Qed.

(** X12 : Cleaning up after a create.  A successful create followed by a delete
    of the id it returned (as the tests do after each scenario) leaves the
    table exactly as it was before the create; only the counter has moved
    on, to the id that was used. *)
Theorem create_then_delete_restores_the_table
  (now later : Z) (s : Server) (username email : string) (age : Q) :
  username <> "" -> email <> "" -> age_in_range age ->
  username_free username (db s) -> email_free email (db s) ->
  exists (u : User.t) (s1 : Server),
    serve now (POST_api_users (Body.mk (Some username) (Some email) (Some age))) s
    = (created u, s1)
    /\ let (response, s2) :=
         serve later (DELETE_api_users_id (js_string_of_int (User.id u))) s1 in
       response = deleted
       /\ users (db s2) = users (db s)
       /\ sqlite_sequence (db s2) = User.id u
       /\ dbPath s2 = db s2.
Proof.
  intros Hu He Hage Hfu Hfe.
  eexists. eexists. split; [apply serve_post_created; assumption|].
  rewrite serve_delete_id. cbn [user_of_row created_row col0 User.id].
  rewrite parseInt_js_string_of_int.
  cbn [db dbPath users sqlite_sequence after_insert].
  pose proof (filter_out_created_row now username email age (db s)) as Hfilter.
  unfold created_row, Row in *. rewrite Hfilter. repeat split.
Qed.

Lemma create_then_delete_restores_the_table_witness :
  let s := snd (serve 99 (POST_api_users
                            (Body.mk (Some "bob") (Some "b@example.com") (Some 30%Q)))
                      (initial_server 0)) in
  exists (u : User.t) (s1 : Server),
    serve 100 (POST_api_users
                 (Body.mk (Some "alice") (Some "a@example.com") (Some 25%Q))) s
    = (created u, s1)
    /\ let (response, s2) :=
         serve 101 (DELETE_api_users_id (js_string_of_int (User.id u))) s1 in
       response = deleted
       /\ users (db s2) = users (db s)
       /\ sqlite_sequence (db s2) = User.id u
       /\ dbPath s2 = db s2.
Proof.
  intros s.
  apply (create_then_delete_restores_the_table 100 101 s
           "alice" "a@example.com" 25%Q).
  - discriminate.
  - discriminate.
  - split; discriminate.
  - intros row [<-|[]]. discriminate.
  - intros row [<-|[]]. discriminate.
Defined.

(** X13 : Read after write, by username.  After a successful create, GET
    /api/users/username/:username with the submitted username is answered
    200 with the very user the create returned. *)
Theorem create_then_get_by_username
  (now later : Z) (s : Server) (username email : string) (age : Q) :
  username <> "" -> email <> "" -> age_in_range age ->
  username_free username (db s) -> email_free email (db s) ->
  exists (u : User.t) (s1 : Server),
    serve now (POST_api_users (Body.mk (Some username) (Some email) (Some age))) s
    = (created u, s1)
    /\ fst (serve later (GET_api_users_username username) s1) = found u.
Proof.
  intros Hu He Hage Hfu Hfe.
  eexists. eexists. split; [apply serve_post_created; assumption|].
  rewrite serve_get_username. cbn [fst db users after_insert].
  pose proof (select_username_after_insert (users (db s)) username
                (created_row now username email age (db s)) Hfu eq_refl) as Hsel.
  unfold created_row, Row in *. rewrite Hsel. reflexivity.
Qed.

Lemma create_then_get_by_username_witness :
  exists (u : User.t) (s1 : Server),
    serve 100 (POST_api_users
                 (Body.mk (Some "alice") (Some "a@example.com") (Some 25%Q)))
          (initial_server 0)
    = (created u, s1)
    /\ fst (serve 101 (GET_api_users_username "alice") s1) = found u.
Proof.
  apply (create_then_get_by_username 100 101 (initial_server 0)
           "alice" "a@example.com" 25%Q).
  - discriminate.
  - discriminate.
  - split; discriminate.
  - intros row [].
  - intros row [].
Defined.

Lemma order_by_newest_last rows row :
  (forall r, In r rows -> col4 r < col4 row) ->
  order_by_created_at_desc (rows ++ [row]) = row :: order_by_created_at_desc rows.
Proof.
  induction rows as [|r rows IH]; intros Hnew; [reflexivity|].
  cbn [app order_by_created_at_desc fold_right].
  change (fold_right insert_by_created_at [] (rows ++ [row]))
    with (order_by_created_at_desc (rows ++ [row])).
  rewrite IH; [|intros r' Hr'; apply Hnew; now right].
  cbn [insert_by_created_at].
  pose proof (Hnew r (or_introl eq_refl)) as Hlt.
  destruct (Z.leb_spec (col4 row) (col4 r)); [lia|reflexivity].
Qed.

(** X14 : The list after a create.  After a successful create the list holds
    the created user and otherwise exactly the users it held before; when
    the clock reading of the create is later than the [created_at] of every
    live record, the created user is the first of the list and the rest is
    the list as it was. *)
Theorem create_then_list
  (now later : Z) (s : Server) (username email : string) (age : Q) :
  username <> "" -> email <> "" -> age_in_range age ->
  username_free username (db s) -> email_free email (db s) ->
  exists (u : User.t) (s1 : Server) (before after : list User.t),
    serve now (POST_api_users (Body.mk (Some username) (Some email) (Some age))) s
    = (created u, s1)
    /\ fst (serve later GET_api_users s) = listed before
    /\ fst (serve later GET_api_users s1) = listed after
    /\ Permutation after (u :: before)
    /\ ((forall row, In row (users (db s)) -> col4 row < now) ->
        after = u :: before).
Proof.
  intros Hu He Hage Hfu Hfe.
  eexists. eexists. eexists. eexists.
  split; [apply serve_post_created; assumption|].
  rewrite !serve_get_all. cbn [fst db users after_insert].
  split; [reflexivity|]. split; [reflexivity|]. split.
  - rewrite <- order_by_created_at_desc_perm.
    rewrite map_app. cbn [map]. rewrite <- Permutation_cons_append.
    apply perm_skip. apply Permutation_map. apply order_by_created_at_desc_perm.
  - intros Hnewest. rewrite order_by_newest_last; [reflexivity|].
    intros r Hin. cbn. apply Hnewest. exact Hin.
Qed.

Lemma create_then_list_witness :
  let s := snd (serve 99 (POST_api_users
                            (Body.mk (Some "bob") (Some "b@example.com") (Some 30%Q)))
                      (initial_server 0)) in
  exists (u : User.t) (s1 : Server) (before after : list User.t),
    serve 100 (POST_api_users
                 (Body.mk (Some "alice") (Some "a@example.com") (Some 25%Q))) s
    = (created u, s1)
    /\ fst (serve 101 GET_api_users s) = listed before
    /\ fst (serve 101 GET_api_users s1) = listed after
    /\ Permutation after (u :: before)
    /\ ((forall row, In row (users (db s)) -> col4 row < 100) ->
        after = u :: before).
Proof.
  intros s.
  apply (create_then_list 100 101 s "alice" "a@example.com" 25%Q).
  - discriminate.
  - discriminate.
  - split; discriminate.
  - intros row [<-|[]]. discriminate.
  - intros row [<-|[]]. discriminate.
Defined.

(** X15 : Lookups hit exactly the live records.  For an id parameter that
    JavaScript reads exactly (as the integer the digits denote, or as NaN),
    GET /api/users/:id is answered 200 exactly when some live record has the
    id the parameter reads as, and GET /api/users/username/:username exactly
    when some live record has that username; the user returned is then a
    live record with that id (resp. username).  Otherwise the answer is
    404. *)
Theorem lookups_hit_exactly_the_live_records
  (now : Z) (s : Server) (id username : string) :
  reads_exactly id ->
  let by_id := fst (serve now (GET_api_users_id id) s) in
  let by_username := fst (serve now (GET_api_users_username username) s) in
  ((exists row, In row (users (db s)) /\ parseInt id = Some (col0 row))
   -> exists row, In row (users (db s)) /\ parseInt id = Some (col0 row)
                  /\ by_id = found (user_of_row row))
  /\ (~ (exists row, In row (users (db s)) /\ parseInt id = Some (col0 row))
      -> by_id = failure 404 "User not found")
  /\ ((exists row, In row (users (db s)) /\ col1 row = username)
      -> exists row, In row (users (db s)) /\ col1 row = username
                     /\ by_username = found (user_of_row row))
  /\ (~ (exists row, In row (users (db s)) /\ col1 row = username)
      -> by_username = failure 404 "User not found").
Proof.
  intros _. cbn zeta. rewrite serve_get_id, serve_get_username. cbn [fst].
  assert (Hid : forall row, In row (users (db s)) ->
                  (id_matches (parseInt id) row = true <-> parseInt id = Some (col0 row))).
  { intros row _. unfold id_matches. destruct (parseInt id) as [n|].
    - rewrite Z.eqb_eq. split; congruence.
    - split; discriminate. }
  split; [|split; [|split]].
  - intros [row [Hin Hrow]].
    destruct (filter (id_matches (parseInt id)) (users (db s))) as [|hit rest] eqn:Hf.
    + assert (In row []) as []. rewrite <- Hf. apply filter_In.
      split; [exact Hin|]. apply Hid; assumption.
    + assert (In hit (filter (id_matches (parseInt id)) (users (db s)))) as Hhit
        by (rewrite Hf; now left).
      apply filter_In in Hhit. destruct Hhit as [Hhin Hhm].
      exists hit. split; [exact Hhin|]. split; [apply Hid; assumption|reflexivity].
  - intros Hnone.
    rewrite filter_none; [reflexivity|].
    intros row Hin. apply not_true_is_false. intros Hm.
    apply Hnone. exists row. split; [exact Hin|]. apply Hid; assumption.
  - intros [row [Hin Hrow]].
    destruct (filter (username_matches username) (users (db s))) as [|hit rest] eqn:Hf.
    + assert (In row []) as []. rewrite <- Hf. apply filter_In.
      split; [exact Hin|]. apply String.eqb_eq. exact Hrow.
    + assert (In hit (filter (username_matches username) (users (db s)))) as Hhit
        by (rewrite Hf; now left).
      apply filter_In in Hhit. destruct Hhit as [Hhin Hhm].
      exists hit. split; [exact Hhin|]. split; [apply String.eqb_eq; exact Hhm|reflexivity].
  - intros Hnone.
    rewrite filter_none; [reflexivity|].
    intros row Hin. apply String.eqb_neq. intros Heq.
    apply Hnone. exists row. split; [exact Hin|exact Heq].
Qed.

Lemma lookups_hit_exactly_the_live_records_witness :
  let s := snd (serve 100 (POST_api_users
                             (Body.mk (Some "alice") (Some "a@example.com") (Some 25%Q)))
                      (initial_server 0)) in
  (exists row, In row (users (db s)) /\ parseInt "1" = Some (col0 row)
               /\ fst (serve 101 (GET_api_users_id "1") s) = found (user_of_row row))
  /\ fst (serve 101 (GET_api_users_username "nobody") s)
     = failure 404 "User not found".
Proof.
  intros s.
  destruct (lookups_hit_exactly_the_live_records 101 s "1" "nobody" eq_refl)
    as (Hhit & _ & _ & Hmiss).
  split.
  - apply Hhit. exists (1, "alice", "a@example.com", INTEGER 25, 100).
    split; [left; reflexivity|reflexivity].
  - apply Hmiss. intros [row [[<-|[]] Hrow]]. discriminate Hrow.
Defined.

(* ===================================================================== *)
(** ** The page and the server together *)
(* ===================================================================== *)

Lemma Qred_inject_Z n : Qred (inject_Z n) = inject_Z n.
Proof.
  unfold Qred, inject_Z.
  pose proof (Z.ggcd_gcd n 1) as Hg.
  pose proof (Z.ggcd_correct_divisors n 1) as Hdiv.
  destruct (Z.ggcd n 1) as [g [a b]]. cbn [fst snd] in *.
  rewrite Z.gcd_1_r in Hg. subst g. destruct Hdiv as [Ha Hb].
  rewrite Z.mul_1_l in Ha, Hb. subst a b. reflexivity.
Qed.

(** A whole number goes through the [age] column as INTEGER and comes back
    as itself. *)
Lemma get_bind_inject_Z n : get_number (bind_number (inject_Z n)) = inject_Z n.
Proof.
  unfold bind_number. rewrite Qred_inject_Z. reflexivity.
Qed.

Lemma user_of_created_whole now username email n d :
  user_of_row (created_row now username email (inject_Z n) d)
  = User.mk (next_rowid d) username email (inject_Z n) now.
Proof.
  unfold user_of_row, created_row. cbn [col0 col1 col2 col3 col4].
  rewrite get_bind_inject_Z. reflexivity.
Qed.

Lemma age_in_range_inject_Z n : 1 <= n <= 150 -> age_in_range (inject_Z n).
Proof.
  intros [Hlo Hhi]. split; unfold Qle, inject_Z; cbn; lia.
Qed.

(** An integer of at most 53 bits is a double. *)
Lemma double_of_Z_exact n : Z.abs n < 2 ^ 53 -> double_of_Z n = Some n.
Proof.
  intros Hn. unfold double_of_Z.
  destruct (Z.leb_spec (Z.log2 (Z.abs n) - 52) 0) as [_|He]; [reflexivity|].
  exfalso. assert (Z.log2 (Z.abs n) < 53); [|lia].
  destruct (Z.eq_dec (Z.abs n) 0) as [->|Hnz]; [cbn; lia|].
  apply Z.log2_lt_pow2; lia.
Qed.

(** Rounding does not bring an integer outside [1, 150] inside it. *)
Lemma double_of_Z_out_of_range n m :
  double_of_Z n = Some m -> n < 0 \/ 150 < n -> m < 0 \/ 150 < m.
Proof.
  unfold double_of_Z.
  set (a := Z.abs n). set (e := Z.log2 a - 52).
  destruct (Z.leb_spec e 0) as [_|He]; [intros [= <-]; trivial|].
  set (q := Z.shiftr a e).
  match goal with
  | |- context [if ?c then q + 1 else q] => set (q' := if c then q + 1 else q)
  end.
  destruct (2 ^ 1024 <=? Z.shiftl q' e); [discriminate|].
  intros [= <-] Hn.
  assert (Ha : 0 < a).
  { destruct (Z.eq_dec a 0) as [H0|]; [|lia].
    unfold e in He. rewrite H0 in He. cbn in He. lia. }
  assert (Hq : 2 ^ 52 <= q).
  { unfold q. rewrite Z.shiftr_div_pow2 by lia.
    apply Z.div_le_lower_bound; [apply Z.pow_pos_nonneg; lia|].
    rewrite Z.mul_comm, <- Z.pow_add_r by lia.
    replace (52 + e) with (Z.log2 a) by (unfold e; lia).
    apply Z.log2_spec. exact Ha. }
  assert (Hq' : q <= q').
  { unfold q'. match goal with |- context [if ?c then _ else _] => destruct c end; lia. }
  rewrite Z.shiftl_mul_pow2 by lia.
  assert (He2 : 2 <= 2 ^ e).
  { change 2 with (2 ^ 1) at 1. apply Z.pow_le_mono_r; lia. }
  assert (Hbig : 2 ^ 53 <= q' * 2 ^ e).
  { change (2 ^ 53) with (2 ^ 52 * 2). apply Z.mul_le_mono_nonneg; lia. }
  assert (2 ^ 53 = 9007199254740992) by reflexivity.
  destruct Hn as [Hneg|Hpos].
  - left. rewrite (Z.sgn_neg n Hneg). lia.
  - right. rewrite (Z.sgn_pos n) by lia. lia.
Qed.

(** Skipping white space one character at a time. *)
Lemma lead_is_needed c1 c2 c3 :
  is_js_whitespace_lead c1 = false ->
  is_js_whitespace2 c1 c2 = false /\ is_js_whitespace3 c1 c2 c3 = false.
Proof.
  unfold is_js_whitespace_lead, is_js_whitespace2, is_js_whitespace3. cbv zeta.
  intros H. repeat (apply orb_false_iff in H; destruct H as [H ?]).
  repeat match goal with
         | E : (_ =? _) = false |- _ => rewrite E; clear E
         end.
  split; reflexivity.
Qed.

Lemma trim_start_step s :
  trim_start s
  = match skip_whitespace_character s with
    | Some rest => trim_start rest
    | None => s
    end.
Proof.
  destruct s as [|c1 s1]; [reflexivity|]. cbn [trim_start skip_whitespace_character].
  destruct (is_js_whitespace c1); [reflexivity|].
  destruct (is_js_whitespace_lead c1) eqn:Hlead.
  - destruct s1 as [|c2 s2]; [reflexivity|].
    destruct (is_js_whitespace2 c1 c2); [reflexivity|].
    destruct s2 as [|c3 s3]; [reflexivity|].
    destruct (is_js_whitespace3 c1 c2 c3); reflexivity.
  - destruct s1 as [|c2 s2]; [reflexivity|].
    destruct (lead_is_needed c1 c2 c2 Hlead) as [-> _].
    destruct s2 as [|c3 s3]; [reflexivity|].
    destruct (lead_is_needed c1 c2 c3 Hlead) as [_ ->]. reflexivity.
Qed.

(** What is skipped is one character of one to three bytes, whatever comes
    after it. *)
Lemma skip_whitespace_character_spec s rest :
  skip_whitespace_character s = Some rest ->
  exists w,
    s = w ++ rest
    /\ (String.length rest < String.length s)%nat
    /\ forall rest', skip_whitespace_character (w ++ rest') = Some rest'.
Proof.
  destruct s as [|c1 s1]; [discriminate|]. cbn [skip_whitespace_character].
  destruct (is_js_whitespace c1) eqn:H1.
  { intros [= <-]. exists (String c1 ""). cbn. rewrite H1. repeat split; lia. }
  destruct s1 as [|c2 s2]; [discriminate|].
  destruct (is_js_whitespace2 c1 c2) eqn:H2.
  { intros [= <-]. exists (String c1 (String c2 "")). cbn. rewrite H1, H2.
    repeat split; lia. }
  destruct s2 as [|c3 s3]; [discriminate|].
  destruct (is_js_whitespace3 c1 c2 c3) eqn:H3; [|discriminate].
  intros [= <-]. exists (String c1 (String c2 (String c3 ""))). cbn.
  rewrite H1, H2, H3. repeat split; lia.
Qed.

Lemma whitespace_only_trim_start s : whitespace_only s -> trim_start s = "".
Proof.
  induction 1 as [|s rest Hskip _ IH]; [reflexivity|].
  rewrite trim_start_step, Hskip. exact IH.
Qed.

(** A field of white space only is sent as the empty string. *)
Lemma trim_whitespace_only s : whitespace_only s -> trim s = "".
Proof.
  intros H. unfold trim. rewrite (whitespace_only_trim_start s H). reflexivity.
Qed.
(** X16 : What the page shows is what the store holds.  When the trimmed
    username and email of the form are not empty and free, and the age field
    reads as a whole number within [1, 150], a submit ends with the form
    hidden and the user panel showing the username, the email, the age and
    the id the store assigned; a GET /api/users/:id with the id shown on the
    page is answered with exactly those values and the clock reading of the
    create. *)
Theorem registration_shows_what_the_store_holds
  (now later : Z) (d : Dom) (s : Server) (n : Z) :
  let username := trim (username_value d) in
  let email := trim (email_value d) in
  username <> "" -> email <> "" ->
  parseInt (age_value d) = Some n -> 1 <= n <= 150 ->
  username_free username (db s) -> email_free email (db s) ->
  let (page, s1) := register now d s in
  let id := next_rowid (db s) in
  form_hidden page = true
  /\ userInfo_hidden page = false
  /\ userId page = JsNumber (inject_Z id)
  /\ displayUsername page = JsString username
  /\ displayEmail page = JsString email
  /\ displayAge page = JsNumber (inject_Z n)
  /\ submitBtn_disabled page = false
  /\ fst (serve later (GET_api_users_id (js_string_of_int id)) s1)
     = found (User.mk id username email (inject_Z n) now).
Proof.
  intros username email Hu He Hage Hn Hfu Hfe.
  unfold register, formData. rewrite Hage, (double_of_Z_exact n) by lia.
  cbn [option_map]. fold username email.
  rewrite serve_post_created; try assumption; [|apply age_in_range_inject_Z; exact Hn].
  rewrite user_of_created_whole. cbv beta iota zeta.
  repeat (split; [reflexivity|]).
  pose proof (get_by_id_after_insert later now s
                (SELECT_users_WHERE_username username
                   :: INSERT_INTO_users username email (inject_Z n) :: issued s)
                username email (inject_Z n)
                (js_string_of_int (next_rowid (db s)))
                (parseInt_js_string_of_int _)) as Hget.
  cbn zeta in Hget. rewrite Hget, user_of_created_whole. reflexivity.
Qed.

Lemma registration_shows_what_the_store_holds_witness :
  let d := filled_form "  alice " "alice@example.com" "25" in
  let (page, s1) := register 100 d (initial_server 0) in
  form_hidden page = true
  /\ userInfo_hidden page = false
  /\ userId page = JsNumber 1
  /\ displayUsername page = JsString "alice"
  /\ displayEmail page = JsString "alice@example.com"
  /\ displayAge page = JsNumber 25
  /\ submitBtn_disabled page = false
  /\ fst (serve 101 (GET_api_users_id "1") s1)
     = found (User.mk 1 "alice" "alice@example.com" 25 100).
Proof.
  intros d.
  apply (registration_shows_what_the_store_holds 100 101 d (initial_server 0) 25).
  - discriminate.
  - discriminate.
  - reflexivity.
  - lia.
  - intros row [].
  - intros row [].
Defined.

(** X17 : Registering a username twice from the page.  After a registration
    that succeeded, a second submit with the same (trimmed) username, any
    other non-empty email and any age within [1, 150] shows the error
    "Username or email already exists" and leaves the form on screen; the
    store is unchanged, and GET /api/users/username/:username still answers
    with the first registration, first email included. *)
Theorem second_registration_of_a_username_is_refused
  (now later after : Z) (d1 d2 : Dom) (s : Server) (n1 n2 : Z) :
  let username := trim (username_value d1) in
  let email1 := trim (email_value d1) in
  let email2 := trim (email_value d2) in
  trim (username_value d2) = username ->
  username <> "" -> email1 <> "" -> email2 <> "" ->
  parseInt (age_value d1) = Some n1 -> 1 <= n1 <= 150 ->
  parseInt (age_value d2) = Some n2 -> 1 <= n2 <= 150 ->
  username_free username (db s) -> email_free email1 (db s) ->
  let (page1, s1) := register now d1 s in
  let (page2, s2) := register later d2 s1 in
  message_textContent page2 = JsString "Username or email already exists"
  /\ message_className page2 = "message error"
  /\ message_hidden page2 = false
  /\ form_hidden page2 = form_hidden d2
  /\ store s2 = store s1
  /\ fst (serve after (GET_api_users_username username) s2)
     = found (User.mk (next_rowid (db s)) username email1 (inject_Z n1) now).
Proof.
  intros username email1 email2 Hsame Hu He1 He2 Hage1 Hn1 Hage2 Hn2 Hfu Hfe.
  unfold register at 1. unfold formData.
  rewrite Hage1, (double_of_Z_exact n1) by lia. cbn [option_map].
  fold username email1.
  rewrite serve_post_created; try assumption; [|apply age_in_range_inject_Z; exact Hn1].
  unfold register, formData.
  rewrite Hage2, (double_of_Z_exact n2), Hsame by lia. cbn [option_map]. fold email2.
  rewrite serve_post_conflict; try assumption;
    [|apply age_in_range_inject_Z; exact Hn2|].
  - cbv beta iota zeta. repeat (split; [reflexivity|]).
    rewrite serve_get_username. cbn [fst db users after_insert].
    pose proof (select_username_after_insert (users (db s)) username
                  (created_row now username email1 (inject_Z n1) (db s))
                  Hfu eq_refl) as Hsel.
    pose proof (user_of_created_whole now username email1 n1 (db s)) as Huser.
    unfold created_row, Row in *. rewrite Hsel, Huser. reflexivity.
  - cbn [db after_insert].
    rewrite (username_taken_existsb username _
               (created_row now username email1 (inject_Z n1) (db s))).
    + reflexivity.
    + cbn [users]. apply in_or_app. right. left. reflexivity.
    + reflexivity.
Qed.

Lemma second_registration_of_a_username_is_refused_witness :
  let d1 := filled_form "alice" "alice@example.com" "25" in
  let d2 := filled_form "alice" "different_alice@example.com" "30" in
  let (page1, s1) := register 100 d1 (initial_server 0) in
  let (page2, s2) := register 101 d2 s1 in
  message_textContent page2 = JsString "Username or email already exists"
  /\ message_className page2 = "message error"
  /\ message_hidden page2 = false
  /\ form_hidden page2 = form_hidden d2
  /\ store s2 = store s1
  /\ fst (serve 102 (GET_api_users_username "alice") s2)
     = found (User.mk 1 "alice" "alice@example.com" 25 100).
Proof.
  intros d1 d2.
  apply (second_registration_of_a_username_is_refused
           100 101 102 d1 d2 (initial_server 0) 25 30).
  - reflexivity.
  - discriminate.
  - discriminate.
  - discriminate.
  - reflexivity.
  - lia.
  - reflexivity.
  - lia.
  - intros row [].
  - intros row [].
Defined.

Lemma whole_age_out_of_range n :
  n < 0 \/ 150 < n ->
  Qeq_bool (inject_Z n) 0 = false
  /\ js_lt (inject_Z n) 1 || js_lt 150 (inject_Z n) = true.
Proof.
  intros Hn. split.
  - apply not_true_is_false. intros H. apply Qeq_bool_iff in H.
    unfold Qeq, inject_Z in H. cbn in H. lia.
  - apply out_of_range_is_rejected. unfold Qlt, inject_Z. cbn. lia.
Qed.

(** X18 : An age out of range, from the page.  When username and email are
    filled in and the age field reads as a whole number below 0 or above
    150 that is not beyond the finite doubles, a submit shows the error "Age
    must be between 1 and 150", leaves form and user panel as they were, and
    changes nothing in the store: if the username was free, GET
    /api/users/username/:username is answered 404 afterwards. *)
Theorem out_of_range_age_is_reported_and_nothing_is_stored
  (now later : Z) (d : Dom) (s : Server) (n : Z) :
  let username := trim (username_value d) in
  let email := trim (email_value d) in
  username <> "" -> email <> "" ->
  parseInt (age_value d) = Some n -> double_of_Z n <> None ->
  n < 0 \/ 150 < n ->
  username_free username (db s) ->
  let (page, s1) := register now d s in
  message_textContent page = JsString "Age must be between 1 and 150"
  /\ message_className page = "message error"
  /\ message_hidden page = false
  /\ form_hidden page = form_hidden d
  /\ userInfo_hidden page = userInfo_hidden d
  /\ store s1 = store s
  /\ fst (serve later (GET_api_users_username username) s1)
     = failure 404 "User not found".
Proof.
  intros username email Hu He Hage Hfinite Hn Hfu.
  destruct (double_of_Z n) as [m|] eqn:Hm; [|contradiction].
  destruct (whole_age_out_of_range m (double_of_Z_out_of_range n m Hm Hn)) as [Hz Hout].
  unfold register, formData. rewrite Hage, Hm. cbn [option_map]. fold username email.
  rewrite serve_post_out_of_range; try assumption.
  cbv beta iota zeta. repeat (split; [reflexivity|]).
  rewrite serve_get_username. cbn [fst db]. rewrite filter_none; [reflexivity|].
  intros row Hin. apply String.eqb_neq. exact (Hfu row Hin).
Qed.

Lemma out_of_range_age_is_reported_and_nothing_is_stored_witness :
  let d := filled_form "alice" "alice@example.com" "200" in
  let (page, s1) := register 100 d (initial_server 0) in
  message_textContent page = JsString "Age must be between 1 and 150"
  /\ message_className page = "message error"
  /\ message_hidden page = false
  /\ form_hidden page = form_hidden d
  /\ userInfo_hidden page = userInfo_hidden d
  /\ store s1 = store (initial_server 0)
  /\ fst (serve 101 (GET_api_users_username "alice") s1)
     = failure 404 "User not found".
Proof.
  intros d.
  apply (out_of_range_age_is_reported_and_nothing_is_stored
           100 101 d (initial_server 0) 200).
  - discriminate.
  - discriminate.
  - reflexivity.
  - discriminate.
  - right. lia.
  - intros row [].
Defined.

(** X19 : Blank and unreadable fields, from the page.  When the username or
    the email field holds only white space (or nothing), or the age field
    does not read as a number, or reads as 0, or reads as an integer beyond
    the finite doubles, a submit shows the error "All fields are required";
    the server issued no statement and the store is unchanged. *)
Theorem blank_or_unreadable_fields_are_reported_as_missing
  (now : Z) (d : Dom) (s : Server) :
  whitespace_only (username_value d)
  \/ whitespace_only (email_value d)
  \/ parseInt (age_value d) = None
  \/ parseInt (age_value d) = Some 0
  \/ (exists n, parseInt (age_value d) = Some n /\ double_of_Z n = None) ->
  let (page, s1) := register now d s in
  message_textContent page = JsString "All fields are required"
  /\ message_className page = "message error"
  /\ message_hidden page = false
  /\ form_hidden page = form_hidden d
  /\ userInfo_hidden page = userInfo_hidden d
  /\ issued s1 = issued s
  /\ store s1 = store s.
Proof.
  intros Hblank. unfold register.
  rewrite serve_post_missing; [cbv beta iota zeta; repeat split|].
  unfold formData. cbn [Body.username Body.email Body.age].
  destruct Hblank as [H|[H|[H|[H|[n [H Hinf]]]]]].
  - rewrite (trim_whitespace_only _ H). reflexivity.
  - rewrite (trim_whitespace_only _ H).
    apply orb_true_iff. left. apply orb_true_iff. right. reflexivity.
  - rewrite H. apply orb_true_iff. right. reflexivity.
  - rewrite H. apply orb_true_iff. right. reflexivity.
  - rewrite H, Hinf. apply orb_true_iff. right. reflexivity.
Qed.

Lemma blank_or_unreadable_fields_are_reported_as_missing_witness :
  let nbsp := String (ascii_of_nat 194) (String (ascii_of_nat 160) "") in
  let d := filled_form (" " ++ nbsp) "alice@example.com" "25" in
  let (page, s1) := register 100 d (initial_server 0) in
  message_textContent page = JsString "All fields are required"
  /\ message_className page = "message error"
  /\ message_hidden page = false
  /\ form_hidden page = form_hidden d
  /\ userInfo_hidden page = userInfo_hidden d
  /\ issued s1 = issued (initial_server 0)
  /\ store s1 = store (initial_server 0).
Proof.
  intros nbsp d.
  apply (blank_or_unreadable_fields_are_reported_as_missing 100 d (initial_server 0)).
  left.
  eapply whitespace_only_more; [reflexivity|].
  eapply whitespace_only_more; [reflexivity|].
  apply whitespace_only_empty.
Defined.

(** X20 : After a submit the page is ready for another try.  Whatever the
    request does, the submit handler ends with the button enabled and
    labelled "Register User" and with the three inputs as the user left
    them.  When the request or the parsing of its answer throws, the page
    shows the fixed text "Failed to register user. Please ensure the server
    is running." as an error, never the text of the error thrown, and form
    and user panel stay as they were. *)
Theorem submit_ends_ready_for_retry
  (fetch : Body.t -> Completion Json.t) (d : Dom) :
  let page := on_submit fetch d in
  submitBtn_disabled page = false
  /\ submitBtn_textContent page = "Register User"
  /\ username_value page = username_value d
  /\ email_value page = email_value d
  /\ age_value page = age_value d
  /\ match fetch (formData d) with
     | Throw _ =>
         message_textContent page
         = JsString "Failed to register user. Please ensure the server is running."
         /\ message_className page = "message error"
         /\ message_hidden page = false
         /\ form_hidden page = form_hidden d
         /\ userInfo_hidden page = userInfo_hidden d
     | Normal _ => True
     end.
Proof.
  cbn zeta. unfold on_submit.
  destruct (fetch (formData d)) as [data|message].
  - destruct (Json.success data); [destruct (Json.user data)|]; cbn; repeat split.
  - cbn. repeat split.
Qed.


(* ===================================================================== *)
(** ** What the page sends *)
(* ===================================================================== *)

Lemma append_empty_r s : s ++ "" = s.
Proof. induction s as [|c s IH]; cbn; [reflexivity|]. rewrite IH. reflexivity. Qed.

Lemma append_assoc s t u : (s ++ t) ++ u = s ++ (t ++ u).
Proof. induction s as [|c s IH]; cbn; [reflexivity|]. rewrite IH. reflexivity. Qed.

(** [trim_start] cuts off white space only, and all of it. *)
Lemma trim_start_split_bounded n : forall s,
  (String.length s <= n)%nat ->
  (exists w, s = w ++ trim_start s /\ whitespace_only w)
  /\ skip_whitespace_character (trim_start s) = None.
Proof.
  induction n as [|n IH]; intros s Hlen.
  - destruct s; [|cbn in Hlen; lia]. split; [exists ""; split; [reflexivity|constructor]|reflexivity].
  - rewrite trim_start_step.
    destruct (skip_whitespace_character s) as [rest|] eqn:Hskip.
    + destruct (skip_whitespace_character_spec s rest Hskip) as (w & Hs & Hshort & Hany).
      destruct (IH rest ltac:(lia)) as [[w' [Hrest Hw']] Hnone].
      split; [|exact Hnone].
      exists (w ++ w'). split.
      * rewrite append_assoc, <- Hrest. exact Hs.
      * apply (whitespace_only_more _ w'); [apply Hany|exact Hw'].
    + split; [|exact Hskip]. exists "". split; [reflexivity|constructor].
Qed.

Lemma trim_start_split s :
  exists w, s = w ++ trim_start s /\ whitespace_only w.
Proof. exact (proj1 (trim_start_split_bounded _ s (le_n _))). Qed.

Lemma trim_start_clean s : skip_whitespace_character (trim_start s) = None.
Proof. exact (proj2 (trim_start_split_bounded _ s (le_n _))). Qed.

Lemma trim_start_empty_whitespace_only s : trim_start s = "" -> whitespace_only s.
Proof.
  intros H. destruct (trim_start_split s) as [w [Hs Hw]].
  rewrite H, append_empty_r in Hs. subst w. exact Hw.
Qed.

(** [trim_end] cuts off white space only. *)
Lemma trim_end_split s :
  exists w, s = trim_end s ++ w /\ whitespace_only w.
Proof.
  induction s as [|c s [w [Hs Hw]]]; [exists ""; split; [reflexivity|constructor]|].
  cbn [trim_end].
  destruct (String.eqb_spec (trim_start (String c s)) "") as [Hall|Hsome].
  - exists (String c s). split; [reflexivity|].
    apply trim_start_empty_whitespace_only. exact Hall.
  - exists w. split; [cbn; f_equal; exact Hs|exact Hw].
Qed.

(** A string that starts with no white space has no prefix that does. *)
Lemma skip_none_prefix p v :
  skip_whitespace_character (p ++ v) = None -> skip_whitespace_character p = None.
Proof.
  destruct p as [|c1 [|c2 [|c3 p]]]; cbn [append skip_whitespace_character];
    try reflexivity.
  - destruct (is_js_whitespace c1); [discriminate|reflexivity].
  - destruct (is_js_whitespace c1); [discriminate|].
    destruct (is_js_whitespace2 c1 c2); [discriminate|reflexivity].
  - destruct (is_js_whitespace c1); [discriminate|].
    destruct (is_js_whitespace2 c1 c2); [discriminate|].
    destruct (is_js_whitespace3 c1 c2 c3); [discriminate|reflexivity].
Qed.

(** Where [trim_end] has got to a character, it has kept all before it. *)
Lemma trim_end_front front : forall t last,
  trim_end t = front ++ last -> last <> "" ->
  exists t', t = front ++ t' /\ trim_end t' = last.
Proof.
  induction front as [|a front IH]; intros t last Heq Hlast.
  - exists t. split; [reflexivity|exact Heq].
  - destruct t as [|c t]; [discriminate Heq|].
    cbn [trim_end append] in Heq.
    destruct (String.eqb (trim_start (String c t)) ""); [discriminate Heq|].
    injection Heq as -> Heq.
    destruct (IH t last Heq Hlast) as [t' [-> Ht']].
    exists t'. split; [reflexivity|exact Ht'].
Qed.

Lemma trimmed_of_trim s : trimmed_of s (trim s).
Proof.
  unfold trimmed_of, trim. split; [|split].
  - destruct (trim_start_split s) as [before [Hs Hbefore]].
    destruct (trim_end_split (trim_start s)) as [after [Ht Hafter]].
    exists before, after. split; [|split; assumption].
    rewrite <- Ht. exact Hs.
  - intros [rest Hskip].
    destruct (trim_end_split (trim_start s)) as [after [Ht _]].
    pose proof (trim_start_clean s) as Hclean. rewrite Ht in Hclean.
    rewrite (skip_none_prefix _ _ Hclean) in Hskip. discriminate.
  - intros (front & last & Hsplit & Hlast).
    assert (Hne : last <> "") by (intros ->; discriminate Hlast).
    destruct (trim_end_front front (trim_start s) last Hsplit Hne) as [t' [_ Ht']].
    destruct (trim_end_split t') as [after [Ht'split Hafter]].
    rewrite Ht' in Ht'split.
    destruct (skip_whitespace_character_spec last "" Hlast) as (w & Hw & _ & Hany).
    rewrite append_empty_r in Hw. subst w.
    assert (Hall : trim_start t' = "").
    { rewrite Ht'split, trim_start_step, Hany.
      apply whitespace_only_trim_start. exact Hafter. }
    destruct t' as [|c t']; [cbn in Ht'; congruence|].
    cbn [trim_end] in Ht'. rewrite Hall in Ht'. cbn in Ht'. congruence.
Qed.

(** X21 : The page sends trimmed names.  The username and the email that a
    submit posts are the contents of the inputs without the white space
    around them: each input is what is posted with white space only before
    and after it, and what is posted neither starts nor ends with a white
    space character. *)
Theorem form_data_is_trimmed (d : Dom) :
  exists username email,
    Body.username (formData d) = Some username
    /\ Body.email (formData d) = Some email
    /\ trimmed_of (username_value d) username
    /\ trimmed_of (email_value d) email.
Proof.
  exists (trim (username_value d)), (trim (email_value d)).
  repeat split; try apply trimmed_of_trim.
Qed.

Example double_of_Z_examples :
  double_of_Z 150 = Some 150
  /\ double_of_Z (2 ^ 53 + 1) = Some (2 ^ 53)
  /\ double_of_Z (2 ^ 53 + 3) = Some (2 ^ 53 + 4)
  /\ double_of_Z (- (10 ^ 21)) = Some (- (10 ^ 21))
  /\ double_of_Z (10 ^ 400) = None.
Proof. repeat split; vm_compute; reflexivity. Qed.

Example trim_examples :
  let nbsp := String (ascii_of_nat 194) (String (ascii_of_nat 160) "") in
  trim "  alice  " = "alice"
  /\ trim "a b" = "a b"
  /\ trim (nbsp ++ " bob" ++ nbsp) = "bob"
  /\ trim ("   " ++ nbsp) = ""
  /\ trim "" = ""
  /\ parseInt (nbsp ++ "25") = Some 25.
Proof. repeat split. Qed.
